(** * Verification of data-validator.py (class DataValidator)

    The development embeds the Python class [DataValidator] and the parts
    of the Python runtime it relies on ([str] of a dict, [str.isnumeric],
    [str.split], [len], [set.add], dict lookup and assignment).

    Scope of the value model: the values [json.load] can hand to the
    validator, except floating-point numbers.  Strings are sequences of
    code points; the model covers the code points U+0000..U+00FF, one
    [ascii] per code point, with CPython's tables for that range. *)

From Stdlib Require Import ZArith Ascii String DecimalString DecimalZ.
From stdpp Require Import gmap strings list.

Local Open Scope string_scope.
Local Set Warnings "-register-all,-clear-no-such-hyp".

(** ** Python strings *)

Module PyStr.

Definition squote : ascii := "'"%char.
Definition dquote : ascii := "034"%char.
Definition backslash : ascii := "\"%char.
Definition tab : ascii := "009"%char.
Definition newline : ascii := "010"%char.
Definition cr : ascii := "013"%char.

Definition code (c : ascii) : N := N_of_ascii c.

(** [str.isprintable] of one code point below U+0100: the control
    characters (Cc), the no-break space (Zs) and the soft hyphen (Cf) are
    not printable; the ASCII space is. *)
Definition isprintable (c : ascii) : bool :=
  let n := code c in
  negb ((n <? 32)%N || ((127 <=? n)%N && (n <=? 160)%N) || (n =? 173)%N).

(** The numeric code points below U+0100: the ASCII digits, the
    superscripts 2, 3 and 1 (U+00B2, U+00B3, U+00B9) and the vulgar
    fractions (U+00BC..U+00BE). *)
Definition isnumeric_char (c : ascii) : bool :=
  let n := code c in
  ((48 <=? n)%N && (n <=? 57)%N) || (n =? 178)%N || (n =? 179)%N
  || (n =? 185)%N || ((188 <=? n)%N && (n <=? 190)%N).

Definition is_ascii_digit (c : ascii) : bool :=
  let n := code c in ((48 <=? n)%N && (n <=? 57)%N).

Fixpoint all_chars (p : ascii -> bool) (s : string) : bool :=
  match s with
  | EmptyString => true
  | String c s' => p c && all_chars p s'
  end.

Fixpoint has_char (c : ascii) (s : string) : bool :=
  match s with
  | EmptyString => false
  | String a s' => if ascii_dec a c then true else has_char c s'
  end.

(** [str.isnumeric]: every character is numeric and there is at least one. *)
Definition isnumeric (s : string) : bool :=
  match s with
  | EmptyString => false
  | _ => all_chars isnumeric_char s
  end.

(** [str.split(sep)] for a one-character separator. *)
Fixpoint split (sep : ascii) (s : string) : list string :=
  match s with
  | EmptyString => [EmptyString]
  | String c s' =>
      if ascii_dec c sep then EmptyString :: split sep s'
      else match split sep s' with
           | [] => [String c EmptyString]
           | w :: ws => String c w :: ws
           end
  end.

Definition hex_digit (n : N) : ascii :=
  match n with
  | 0 => "0" | 1 => "1" | 2 => "2" | 3 => "3" | 4 => "4" | 5 => "5"
  | 6 => "6" | 7 => "7" | 8 => "8" | 9 => "9" | 10 => "a" | 11 => "b"
  | 12 => "c" | 13 => "d" | 14 => "e" | _ => "f"
  end%N%char.

(** The quote [repr] puts around a string: a double quote when the string
    holds a single quote and no double quote, a single quote otherwise. *)
Definition quote_of (s : string) : ascii :=
  if has_char squote s && negb (has_char dquote s) then dquote else squote.

Definition escape_char (q c : ascii) : string :=
  if ascii_dec c q then String backslash (String c EmptyString)
  else if ascii_dec c backslash then String backslash (String c EmptyString)
  else if ascii_dec c tab then String backslash "t"
  else if ascii_dec c newline then String backslash "n"
  else if ascii_dec c cr then String backslash "r"
  else if isprintable c then String c EmptyString
  else String backslash
         (String "x" (String (hex_digit (code c / 16))
                        (String (hex_digit (code c mod 16)) EmptyString))).

Fixpoint escape (q : ascii) (s : string) : string :=
  match s with
  | EmptyString => EmptyString
  | String c s' => escape_char q c +:+ escape q s'
  end.

(** [repr] of a [str]. *)
Definition repr_str (s : string) : string :=
  let q := quote_of s in
  String q (escape q s +:+ String q EmptyString).

(** [repr] of an [int]. *)
Definition repr_int (z : Z) : string := NilZero.string_of_int (Z.to_int z).

End PyStr.

(** ** Python values and [repr] *)

(** The values [json.load] produces, floats left out: [None], booleans,
    integers, strings, lists and dicts.  A dict keeps its items in
    insertion order, which [str] and iteration expose; its keys are
    strings (JSON object names) and are pairwise distinct. *)
Inductive value : Type :=
| VNone
| VBool (b : bool)
| VInt (z : Z)
| VStr (s : string)
| VList (l : list value)
| VDict (d : list (string * value)).

Abbreviation dict := (list (string * value)).

Fixpoint join (sep : string) (l : list string) : string :=
  match l with
  | [] => EmptyString
  | [x] => x
  | x :: l' => x +:+ sep +:+ join sep l'
  end.

(** [repr(v)], which is also [str(v)] for every value but a string. *)
Fixpoint repr (v : value) : string :=
  match v with
  | VNone => "None"
  | VBool true => "True"
  | VBool false => "False"
  | VInt z => PyStr.repr_int z
  | VStr s => PyStr.repr_str s
  | VList l => "[" +:+ join ", " (map repr l) +:+ "]"
  | VDict d =>
      "{" +:+ join ", " (map (fun '(k, x) => PyStr.repr_str k +:+ ": " +:+ repr x) d)
      +:+ "}"
  end.

(** [str(d)] for a dict [d]. *)
Definition str_dict (d : dict) : string := repr (VDict d).

(** [k in d.keys()], [d[k]] (None when Python raises KeyError) and
    [d[k] = v]: an existing key keeps its position, a new one goes last. *)
Definition dict_keys (d : dict) : list string := map fst d.

Fixpoint dict_get (d : dict) (k : string) : option value :=
  match d with
  | [] => None
  | (k', v) :: d' => if String.eqb k' k then Some v else dict_get d' k
  end.

Definition dict_has (d : dict) (k : string) : bool :=
  match dict_get d k with Some _ => true | None => false end.

Fixpoint dict_set (d : dict) (k : string) (v : value) : dict :=
  match d with
  | [] => [(k, v)]
  | (k', v') :: d' =>
      if String.eqb k' k then (k', v) :: d' else (k', v') :: dict_set d' k v
  end.

(** The invariant of a Python dict: no key occurs twice. *)
Definition wf_dict (d : dict) : Prop := NoDup (dict_keys d).

(** ** Exceptions and the validator's state *)

(** The exceptions the class can raise.  [NoIDError] is the class's own
    subclass of [KeyError]; a plain [KeyError] comes from [record['id']],
    [TypeError] from [len] of a number and from hashing a list or a dict,
    [AttributeError] from [zip_code.isnumeric] on a value that is no [str]. *)
Inductive exn : Type := KeyError | NoIDError | TypeError | AttributeError.

(** [class NoIDError(KeyError)]: the exceptions that are instances of
    [KeyError], the ones an [except KeyError] clause catches. *)
Definition is_KeyError (e : exn) : bool :=
  match e with
  | KeyError | NoIDError => true
  | TypeError | AttributeError => false
  end.

Inductive result (A : Type) : Type :=
| Ok (a : A)
| Raise (e : exn).
Arguments Ok {A} a.
Arguments Raise {A} e.

(** Elements of a Python set are compared with [==] and hashed: [True]
    and [1] (and [False] and [0]) are one element, lists and dicts cannot
    be hashed. *)
Inductive hkey : Type := HNone | HInt (z : Z) | HStr (s : string).

Definition hash_key (v : value) : option hkey :=
  match v with
  | VNone => Some HNone
  | VBool b => Some (HInt (if b then 1 else 0))
  | VInt z => Some (HInt z)
  | VStr s => Some (HStr s)
  | VList _ | VDict _ => None
  end.

#[global] Instance hkey_eq_dec : EqDecision hkey.
Proof. solve_decision. Defined.

Definition hkey_enc (h : hkey) : unit + (Z + string) :=
  match h with HNone => inl tt | HInt z => inr (inl z) | HStr s => inr (inr s) end.

Definition hkey_dec (x : unit + (Z + string)) : hkey :=
  match x with inl _ => HNone | inr (inl z) => HInt z | inr (inr s) => HStr s end.

#[global] Instance hkey_countable : Countable hkey.
Proof. apply (inj_countable' hkey_enc hkey_dec). by intros []. Defined.

(** [self.bad_records] and [self.records_seen]. *)
Record validator : Type := mkValidator {
  bad_records : gset hkey;
  records_seen : gmap string value
}.

(** [DataValidator()] *)
Definition init : validator := mkValidator ∅ ∅.

(** A method is a function of [self]'s state to an outcome and the state
    it leaves; what was written before an exception stays written. *)
Definition M (A : Type) : Type := validator -> result A * validator.

Definition ret {A} (a : A) : M A := fun st => (Ok a, st).
Definition raise {A} (e : exn) : M A := fun st => (Raise e, st).
Definition bind {A B} (m : M A) (f : A -> M B) : M B :=
  fun st => match m st with
            | (Ok a, st') => f a st'
            | (Raise e, st') => (Raise e, st')
            end.
Definition get_state : M validator := fun st => (Ok st, st).
Definition put_state (st' : validator) : M unit := fun _ => (Ok tt, st').

Notation "x <- m ;; k" := (bind m (fun x => k))
  (at level 100, m at next level, right associativity).
Notation "m ;;; k" := (bind m (fun _ => k))
  (at level 100, right associativity).

(** [record[k]], raising [KeyError] for a missing key. *)
Definition subscript (record : dict) (k : string) : M value :=
  match dict_get record k with
  | Some v => ret v
  | None => raise KeyError
  end.

(** [self.bad_records.add(v)] *)
Definition bad_records_add (v : value) : M unit :=
  match hash_key v with
  | Some h =>
      st <- get_state ;;
      put_state (mkValidator ({[h]} ∪ bad_records st) (records_seen st))
  | None => raise TypeError
  end.

(** [self.records_seen[s] = v] *)
Definition records_seen_set (s : string) (v : value) : M unit :=
  st <- get_state ;;
  put_state (mkValidator (bad_records st) (<[s := v]> (records_seen st))).

(** [len(v)] *)
Definition py_len (v : value) : M nat :=
  match v with
  | VStr s => ret (String.length s)
  | VList l => ret (length l)
  | VDict d => ret (length d)
  | VNone | VBool _ | VInt _ => raise TypeError
  end.

(** ** The methods of [DataValidator] *)

Definition remove_id (record : dict) : dict :=
  fold_left
    (fun d k =>
       if negb (String.eqb k "id") then
         match dict_get record k with
         | Some v => dict_set d k v
         | None => d
         end
       else d)
    (dict_keys record) [].

(** The string [have_seen] and [add_duplicate_to_bad_records] use as key. *)
Definition fingerprint (record : dict) : string := str_dict (remove_id record).

Definition have_seen (record : dict) : M bool :=
  let record_string := str_dict (remove_id record) in
  st <- get_state ;;
  if decide (is_Some (records_seen st !! record_string)) then ret true
  else
    v <- subscript record "id" ;;
    records_seen_set record_string v ;;;
    ret false.

Definition is_null_missing_blank (record : dict) (key : string) : M bool :=
  if negb (dict_has record key) then ret true
  else
    v <- subscript record key ;;
    match v with
    | VNone => ret true
    | _ =>
        n <- py_len v ;;
        if Nat.eqb n 0 then ret true else ret false
    end.

Definition valid_zip_str (zip_code : string) : bool :=
  if PyStr.isnumeric zip_code
     && (Nat.eqb (String.length zip_code) 5 || Nat.eqb (String.length zip_code) 9)
  then true
  else if PyStr.has_char "-" zip_code then
    let a := PyStr.split "-" zip_code in
    if Nat.eqb (length a) 2 then
      match a with
      | [a0; a1] =>
          if PyStr.isnumeric a0 && Nat.eqb (String.length a0) 5
             && PyStr.isnumeric a1 && Nat.eqb (String.length a1) 4
          then true else false
      | _ => false
      end
    else false
  else false.

Definition valid_zip_code (zip_code : value) : M bool :=
  match zip_code with
  | VStr s => ret (valid_zip_str s)
  | _ => raise AttributeError
  end.

Definition add_to_bad_records (record : dict) : M unit :=
  v <- subscript record "id" ;;
  bad_records_add v.

Definition add_duplicate_to_bad_records (record : dict) : M unit :=
  let record_string := str_dict (remove_id record) in
  st <- get_state ;;
  match records_seen st !! record_string with
  | Some v => bad_records_add v
  | None => ret tt
  end.

Definition record_is_valid (record : dict) : M bool :=
  if negb (dict_has record "id") then raise NoIDError
  else
    b1 <- is_null_missing_blank record "name" ;;
    if b1 then ret false
    else
      b2 <- is_null_missing_blank record "address" ;;
      if b2 then ret false
      else
        b3 <- is_null_missing_blank record "zip" ;;
        if b3 then ret false
        else
          z <- subscript record "zip" ;;
          ok <- valid_zip_code z ;;
          if negb ok then ret false else ret true.

(** The body of the loop of [validate_file]. *)
Definition validate_record (d : dict) : M unit :=
  seen <- have_seen d ;;
  if seen then
    add_to_bad_records d ;;;
    add_duplicate_to_bad_records d
  else
    valid <- record_is_valid d ;;
    if negb valid then add_to_bad_records d else ret tt.

(** [validate_file] from the decoded [data] on: the loop over the records
    (opening the file and [json.load] are outside the model). *)
Fixpoint validate_file (data : list dict) : M unit :=
  match data with
  | [] => ret tt
  | d :: data' => validate_record d ;;; validate_file data'
  end.

(** ** Vocabulary of the statements *)

(** A computation that never writes the state. *)
Definition pure_M {A} (m : M A) : Prop := forall st, snd (m st) = st.

(** A computation that keeps every binding of the seen-registry. *)
Definition registry_grows {A} (m : M A) : Prop :=
  forall st, records_seen st ⊆ records_seen (snd (m st)).

(** A computation that never raises [e]. *)
Definition never_raises {A} (e : exn) (m : M A) : Prop :=
  forall st, fst (m st) <> Raise e.

(** Two records with the same keys in the same order and the same value
    under every key but ["id"]. *)
Definition same_but_id (r r' : dict) : Prop :=
  Forall2 (fun p q => fst p = fst q /\ (fst p <> "id" -> snd p = snd q)) r r'.

(** The schema of the validated fields: a field that is present holds
    [None] or a string. *)
Definition str_or_null (r : dict) (k : string) : Prop :=
  match dict_get r k with
  | None | Some VNone | Some (VStr _) => True
  | Some _ => False
  end.

(** A field that is absent, null or the empty string. *)
Definition is_blank (r : dict) (k : string) : bool :=
  match dict_get r k with
  | None | Some VNone | Some (VStr EmptyString) => true
  | Some _ => false
  end.

(** The three ZIP formats over a class [digit] of characters: five
    digits, nine digits, or five digits, a hyphen and four digits. *)
Definition zip_format (digit : ascii -> bool) (s : string) : Prop :=
  (PyStr.all_chars digit s = true /\ (String.length s = 5 \/ String.length s = 9))
  \/ exists a b, s = a +:+ String "-" b
       /\ PyStr.all_chars digit a = true /\ String.length a = 5
       /\ PyStr.all_chars digit b = true /\ String.length b = 4.

(** Five times SUPERSCRIPT TWO (U+00B2). *)
Definition superscript_zip : string :=
  let c := ascii_of_N 178 in
  String c (String c (String c (String c (String c EmptyString)))).

(** The identifier of a record is in the bad-record set. *)
Definition flagged (d : dict) (st : validator) : Prop :=
  exists v h, dict_get d "id" = Some v /\ hash_key v = Some h /\ h ∈ bad_records st.

(** The invariant of the loop of [validate_file] after the first [n]
    records of [data]: the fingerprint of each is registered, and each is
    flagged unless the registry holds its own id and no other of the [n]
    records shares its fingerprint. *)
Definition loop_inv (data : list dict) (n : nat) (st : validator) : Prop :=
  forall i di, i < n -> data !! i = Some di ->
    is_Some (records_seen st !! fingerprint di)
    /\ (flagged di st
        \/ (exists v, dict_get di "id" = Some v
              /\ records_seen st !! fingerprint di = Some v
              /\ forall j dj, j < n -> data !! j = Some dj ->
                   fingerprint dj = fingerprint di -> j = i)).

(** A text that does not start with an ASCII digit: what follows a value
    inside the [str] of a list or a dict, or nothing. *)
Definition no_digit_head (r : string) : Prop :=
  match r with
  | EmptyString => True
  | String c _ => PyStr.is_ascii_digit c = false
  end.

(** The value of a hexadecimal digit and the inverse of [PyStr.escape]:
    [unescape q s] reads [s] up to the first quote [q] that is not
    escaped and returns the text read, decoded, and what follows the
    quote. *)
Definition hex_value (c : ascii) : N :=
  let n := PyStr.code c in
  if (n <? 58)%N then (n - 48)%N else (n - 87)%N.

Fixpoint unescape (q : ascii) (s : string) : option (string * string) :=
  match s with
  | EmptyString => None
  | String c s1 =>
      if ascii_dec c q then Some (EmptyString, s1)
      else if ascii_dec c PyStr.backslash then
        match s1 with
        | EmptyString => None
        | String e s2 =>
            if ascii_dec e "t" then
              option_map (fun p => (String PyStr.tab (fst p), snd p)) (unescape q s2)
            else if ascii_dec e "n" then
              option_map (fun p => (String PyStr.newline (fst p), snd p)) (unescape q s2)
            else if ascii_dec e "r" then
              option_map (fun p => (String PyStr.cr (fst p), snd p)) (unescape q s2)
            else if ascii_dec e "x" then
              match s2 with
              | String h1 (String h2 s3) =>
                  option_map
                    (fun p => (String (ascii_of_N (16 * hex_value h1 + hex_value h2))
                                 (fst p), snd p))
                    (unescape q s3)
              | _ => None
              end
            else option_map (fun p => (String e (fst p), snd p)) (unescape q s2)
        end
      else option_map (fun p => (String c (fst p), snd p)) (unescape q s1)
  end.

(** The kind of a value, and the kind of value whose [repr] can start
    with a given character (6: none). *)
Definition kind (v : value) : nat :=
  match v with
  | VNone => 0 | VBool _ => 1 | VInt _ => 2 | VStr _ => 3
  | VList _ => 4 | VDict _ => 5
  end.

Definition head_kind (c : ascii) : nat :=
  if PyStr.is_ascii_digit c then 2
  else if ascii_dec c "-" then 2
  else if ascii_dec c "N" then 0
  else if ascii_dec c "T" then 1
  else if ascii_dec c "F" then 1
  else if ascii_dec c PyStr.squote then 3
  else if ascii_dec c PyStr.dquote then 3
  else if ascii_dec c "[" then 4
  else if ascii_dec c "{" then 5
  else 6.

(** What follows an item inside the [str] of a list or dict closed by
    [close]: the closing bracket or a comma. *)
Definition sep_tail (close : ascii) (t : string) : Prop :=
  exists s, t = String close s \/ t = String "," s.

(** The text of one item of a dict. *)
Definition repr_item (kv : string * value) : string :=
  PyStr.repr_str (fst kv) +:+ ": " +:+ repr (snd kv).

(** The items of a dict other than the one under ["id"], in order. *)
Definition without_id (r : dict) : dict :=
  filter (fun kv => fst kv <> "id") r.

(** A computation that keeps every element of the bad-record set. *)
Definition bad_records_grow {A} (m : M A) : Prop :=
  forall st, bad_records st ⊆ bad_records (snd (m st)).

(** A computation that neither reads nor writes the state. *)
Definition const_M {A} (m : M A) : Prop :=
  exists r, forall st, m st = (r, st).

(** [record_is_valid] returns [False] on the record. *)
Definition invalid (d : dict) : Prop := fst (record_is_valid d init) = Ok false.

(** Another record of [data], among the first [n], has the fingerprint
    of the record at position [i]. *)
Definition has_duplicate (data : list dict) (n i : nat) (di : dict) : Prop :=
  exists j dj, j < n /\ j <> i /\ data !! j = Some dj
               /\ fingerprint dj = fingerprint di.

(** The record at position [i] is the first of [data] with fingerprint [fp]. *)
Definition first_with (data : list dict) (i : nat) (fp : string) : Prop :=
  forall j dj, j < i -> data !! j = Some dj -> fingerprint dj <> fp.

(** The state of the loop of [validate_file], started on a fresh
    validator, after the first [n] records of [data]: the registry maps
    each fingerprint met to the id of the first record that has it, and
    the bad-record set holds the ids of the records that have a duplicate
    among the [n] or are invalid. *)
Definition run_inv (data : list dict) (n : nat) (st : validator) : Prop :=
  (forall i di, i < n -> data !! i = Some di ->
     is_Some (records_seen st !! fingerprint di))
  /\ (forall fp v, records_seen st !! fp = Some v <->
        exists i di, i < n /\ data !! i = Some di /\ fingerprint di = fp
                     /\ dict_get di "id" = Some v /\ first_with data i fp)
  /\ (forall h, h ∈ bad_records st <->
        exists i di v, i < n /\ data !! i = Some di /\ dict_get di "id" = Some v
                       /\ hash_key v = Some h
                       /\ (has_duplicate data n i di \/ invalid di)).

(** * Properties *)

(** ** The state monad *)

Ltac unfold_M :=
  unfold bind, ret, raise, get_state, put_state, subscript, py_len,
    bad_records_add, records_seen_set in *.

Lemma bind_ok {A B} (m : M A) (f : A -> M B) st a st' :
  m st = (Ok a, st') -> bind m f st = f a st'.
Proof. unfold bind. by intros ->. Qed.

Lemma bind_raise {A B} (m : M A) (f : A -> M B) st e st' :
  m st = (Raise e, st') -> bind m f st = (Raise e, st').
Proof. unfold bind. by intros ->. Qed.

Lemma pure_ret {A} (a : A) : pure_M (ret a).
Proof. by intros st. Qed.

Lemma pure_raise {A} e : pure_M (@raise A e).
Proof. by intros st. Qed.

Lemma pure_bind {A B} (m : M A) (f : A -> M B) :
  pure_M m -> (forall a, pure_M (f a)) -> pure_M (bind m f).
Proof.
  intros Hm Hf st. unfold bind. specialize (Hm st).
  destruct (m st) as [[a|e] st1]; simpl in *; subst; [apply Hf | done].
Qed.

Lemma pure_subscript r k : pure_M (subscript r k).
Proof. unfold subscript. destruct (dict_get r k); [apply pure_ret | apply pure_raise]. Qed.

Lemma pure_py_len v : pure_M (py_len v).
Proof. destruct v; simpl; first [apply pure_ret | apply pure_raise]. Qed.

Lemma pure_is_null_missing_blank r k : pure_M (is_null_missing_blank r k).
Proof.
  unfold is_null_missing_blank. destruct (negb _); [apply pure_ret|].
  apply pure_bind; [apply pure_subscript|]. intros v.
  destruct v; try apply pure_ret;
    (apply pure_bind; [apply pure_py_len | intros n; destruct (Nat.eqb n 0); apply pure_ret]).
Qed.

Lemma pure_valid_zip_code z : pure_M (valid_zip_code z).
Proof. destruct z; simpl; first [apply pure_ret | apply pure_raise]. Qed.

Lemma pure_record_is_valid r : pure_M (record_is_valid r).
Proof.
  unfold record_is_valid. destruct (negb _); [apply pure_raise|].
  repeat first
    [ apply pure_ret
    | apply pure_is_null_missing_blank | apply pure_subscript
    | apply pure_valid_zip_code
    | apply pure_bind; [| intros []] | apply pure_bind; [| intros ?]
    | match goal with |- pure_M (if ?b then _ else _) => destruct b end ].
Qed.

Lemma have_seen_hit r st :
  is_Some (records_seen st !! fingerprint r) -> have_seen r st = (Ok true, st).
Proof.
  intros H. unfold have_seen, bind, get_state. fold (fingerprint r).
  by rewrite decide_True.
Qed.

Lemma have_seen_miss r st v :
  records_seen st !! fingerprint r = None -> dict_get r "id" = Some v ->
  have_seen r st
  = (Ok false, mkValidator (bad_records st) (<[fingerprint r := v]> (records_seen st))).
Proof.
  intros H Hid. unfold have_seen, bind, get_state. fold (fingerprint r).
  rewrite decide_False; [| rewrite H; by intros [? ?]].
  unfold subscript. rewrite Hid. reflexivity.
Qed.

Lemma have_seen_miss_noid r st :
  records_seen st !! fingerprint r = None -> dict_get r "id" = None ->
  have_seen r st = (Raise KeyError, st).
Proof.
  intros H Hid. unfold have_seen, bind, get_state. fold (fingerprint r).
  rewrite decide_False; [| rewrite H; by intros [? ?]].
  unfold subscript. rewrite Hid. reflexivity.
Qed.

Lemma have_seen_bad_records r st : bad_records (snd (have_seen r st)) = bad_records st.
Proof.
  destruct (records_seen st !! fingerprint r) eqn:E.
  - by rewrite have_seen_hit.
  - destruct (dict_get r "id") eqn:Hid.
    + by erewrite have_seen_miss.
    + by rewrite have_seen_miss_noid.
Qed.

(** C10: the queries [is_null_missing_blank], [valid_zip_code] and
    [record_is_valid] leave the seen-registry and the bad-record set as
    they found them, whatever they return or raise, and [have_seen] leaves
    the bad-record set as it found it. *)
Theorem queries_frame (record : dict) (key : string) (zip_code : value) (st : validator) :
  snd (is_null_missing_blank record key st) = st
  /\ snd (valid_zip_code zip_code st) = st
  /\ snd (record_is_valid record st) = st
  /\ bad_records (snd (have_seen record st)) = bad_records st.
Proof.
  split; [apply pure_is_null_missing_blank|].
  split; [apply pure_valid_zip_code|].
  split; [apply pure_record_is_valid|].
  apply have_seen_bad_records.
Qed.

(** ** The seen-registry only grows *)

Lemma grows_pure {A} (m : M A) : pure_M m -> registry_grows m.
Proof. intros H st. by rewrite H. Qed.

Lemma grows_bind {A B} (m : M A) (f : A -> M B) :
  registry_grows m -> (forall a, registry_grows (f a)) -> registry_grows (bind m f).
Proof.
  intros Hm Hf st. unfold bind. specialize (Hm st).
  destruct (m st) as [[a|e] st1]; simpl in *; [| done].
  etrans; [exact Hm | apply Hf].
Qed.

Lemma grows_bad_records_add v : registry_grows (bad_records_add v).
Proof. intros st. unfold bad_records_add. by destruct (hash_key v). Qed.

Lemma grows_have_seen r : registry_grows (have_seen r).
Proof.
  intros st. destruct (records_seen st !! fingerprint r) eqn:E.
  - by rewrite have_seen_hit.
  - destruct (dict_get r "id") eqn:Hid.
    + erewrite have_seen_miss by done. simpl. by apply insert_subseteq.
    + by rewrite have_seen_miss_noid.
Qed.

Lemma grows_add_to_bad_records r : registry_grows (add_to_bad_records r).
Proof.
  apply grows_bind; [apply grows_pure, pure_subscript | apply grows_bad_records_add].
Qed.

Lemma grows_add_duplicate_to_bad_records r :
  registry_grows (add_duplicate_to_bad_records r).
Proof.
  intros st. unfold add_duplicate_to_bad_records, bind, get_state.
  destruct (records_seen st !! _); [apply grows_bad_records_add | done].
Qed.

Lemma grows_validate_record d : registry_grows (validate_record d).
Proof.
  apply grows_bind; [apply grows_have_seen|]. intros [].
  - apply grows_bind; [apply grows_add_to_bad_records|].
    intros _. apply grows_add_duplicate_to_bad_records.
  - apply grows_bind; [apply grows_pure, pure_record_is_valid|].
    intros []; simpl; [by apply grows_pure | apply grows_add_to_bad_records].
Qed.

Lemma grows_validate_file data : registry_grows (validate_file data).
Proof.
  induction data as [|d data IH]; [by apply grows_pure|].
  apply grows_bind; [apply grows_validate_record | by intros _].
Qed.

Lemma grows_lookup {A} (m : M A) st fp v :
  registry_grows m -> records_seen st !! fp = Some v ->
  records_seen (snd (m st)) !! fp = Some v.
Proof. intros H. apply lookup_weaken_inv || (intros; eapply lookup_weaken; eauto). Qed.

(** C7: a fingerprint registered with identifier [v] is still registered
    with [v] after the whole validation pass and after each single method,
    whether it returns or raises; and [have_seen] on a record with a
    registered fingerprint returns [True] and leaves the state as it was. *)
Theorem registry_only_grows (data : list dict) (record : dict) (key : string)
    (st : validator) (fp : string) (v : value)
    (Hreg : records_seen st !! fp = Some v) :
  records_seen (snd (validate_file data st)) !! fp = Some v
  /\ records_seen (snd (have_seen record st)) !! fp = Some v
  /\ records_seen (snd (add_to_bad_records record st)) !! fp = Some v
  /\ records_seen (snd (add_duplicate_to_bad_records record st)) !! fp = Some v
  /\ records_seen (snd (record_is_valid record st)) !! fp = Some v
  /\ records_seen (snd (is_null_missing_blank record key st)) !! fp = Some v
  /\ (fingerprint record = fp -> have_seen record st = (Ok true, st)).
Proof.
  repeat split.
  - by apply (grows_lookup _ _ _ _ (grows_validate_file data)).
  - by apply (grows_lookup _ _ _ _ (grows_have_seen record)).
  - by apply (grows_lookup _ _ _ _ (grows_add_to_bad_records record)).
  - by apply (grows_lookup _ _ _ _ (grows_add_duplicate_to_bad_records record)).
  - by rewrite pure_record_is_valid.
  - by rewrite pure_is_null_missing_blank.
  - intros <-. apply have_seen_hit. by rewrite Hreg.
Qed.

Lemma registry_only_grows_witness :
  let r1 := [("name", VStr "a"); ("id", VStr "1")] in
  let r2 := [("name", VStr "a"); ("id", VStr "2")] in
  let st := snd (have_seen r1 init) in
  records_seen st !! "{'name': 'a'}" = Some (VStr "1")
  /\ records_seen (snd (validate_file [r2; r1] st)) !! "{'name': 'a'}" = Some (VStr "1")
  /\ have_seen r2 st = (Ok true, st).
Proof.
  intros r1 r2 st.
  assert (H : records_seen st !! "{'name': 'a'}" = Some (VStr "1")) by reflexivity.
  split; [exact H|].
  pose proof (registry_only_grows [r2; r1] r2 "name" st _ _ H) as (H1 & _ & _ & _ & _ & _ & H7).
  split; [exact H1 | apply H7; reflexivity].
Defined.

(** ** [have_seen] *)

(** C6: on a record with an id whose fingerprint is not registered,
    [have_seen] returns [False] and binds the fingerprint to that id; in
    every later state, one whose registry still holds that binding, a
    call with a record of equal fingerprint returns [True], whatever the
    id of that record. *)
Theorem have_seen_stateful (r r' : dict) (v : value) (st st2 : validator)
    (Hnew : records_seen st !! fingerprint r = None)
    (Hid : dict_get r "id" = Some v)
    (Hfp : fingerprint r' = fingerprint r)
    (Hlater : records_seen (snd (have_seen r st)) ⊆ records_seen st2) :
  have_seen r st
  = (Ok false, mkValidator (bad_records st) (<[fingerprint r := v]> (records_seen st)))
  /\ have_seen r' st2 = (Ok true, st2).
Proof.
  pose proof (have_seen_miss r st v Hnew Hid) as E. split; [exact E|].
  rewrite E in Hlater. simpl in Hlater. apply have_seen_hit.
  rewrite Hfp. exists v. eapply lookup_weaken; [| exact Hlater].
  apply lookup_insert_eq.
Qed.

Lemma have_seen_stateful_witness :
  let r := [("a", VStr "0"); ("b", VStr "1"); ("c", VStr "2"); ("id", VStr "3")] in
  let r' := [("a", VStr "0"); ("b", VStr "1"); ("c", VStr "2"); ("id", VStr "4")] in
  let st1 := snd (have_seen r init) in
  have_seen r init
  = (Ok false, mkValidator ∅ (<[fingerprint r := VStr "3"]> ∅))
  /\ have_seen r' st1 = (Ok true, st1).
Proof.
  intros r r' st1.
  apply (have_seen_stateful r r' (VStr "3") init st1); reflexivity.
Defined.

(** ** Missing identifiers *)

Lemma never_raises_bind {A B} e (m : M A) (f : A -> M B) :
  never_raises e m -> (forall a, never_raises e (f a)) -> never_raises e (bind m f).
Proof.
  intros Hm Hf st. unfold bind. specialize (Hm st).
  destruct (m st) as [[a|e'] st1]; simpl in *; [apply Hf | congruence].
Qed.

Lemma never_raises_ret {A} e (a : A) : never_raises e (ret a).
Proof. by intros st. Qed.

Lemma subscript_not_NoIDError r k : never_raises NoIDError (subscript r k).
Proof. intros st. unfold subscript. by destruct (dict_get r k). Qed.

Lemma bad_records_add_not_NoIDError v : never_raises NoIDError (bad_records_add v).
Proof. intros st. unfold bad_records_add. by destruct (hash_key v). Qed.

Lemma is_null_missing_blank_not_NoIDError r k :
  never_raises NoIDError (is_null_missing_blank r k).
Proof.
  unfold is_null_missing_blank. destruct (negb _); [apply never_raises_ret|].
  apply never_raises_bind; [apply subscript_not_NoIDError|].
  intros v st. destruct v; simpl; try done;
    unfold bind, ret; simpl; try done.
  all: match goal with |- context [Nat.eqb ?n 0] => by destruct (Nat.eqb n 0) end.
Qed.

Lemma valid_zip_code_not_NoIDError z : never_raises NoIDError (valid_zip_code z).
Proof. intros st. by destruct z. Qed.

Lemma have_seen_not_NoIDError r : never_raises NoIDError (have_seen r).
Proof.
  intros st. destruct (records_seen st !! fingerprint r) eqn:E.
  - by rewrite have_seen_hit.
  - destruct (dict_get r "id") eqn:Hid.
    + by erewrite have_seen_miss.
    + by rewrite have_seen_miss_noid.
Qed.

Lemma add_to_bad_records_not_NoIDError r : never_raises NoIDError (add_to_bad_records r).
Proof.
  apply never_raises_bind; [apply subscript_not_NoIDError | apply bad_records_add_not_NoIDError].
Qed.

Lemma add_duplicate_not_NoIDError r :
  never_raises NoIDError (add_duplicate_to_bad_records r).
Proof.
  intros st. unfold add_duplicate_to_bad_records, bind, get_state.
  destruct (records_seen st !! _); [apply bad_records_add_not_NoIDError | done].
Qed.

(** [record_is_valid] raises [NoIDError] exactly on a record without id. *)
Lemma record_is_valid_NoIDError r st :
  fst (record_is_valid r st) = Raise NoIDError <-> dict_get r "id" = None.
Proof.
  unfold record_is_valid, dict_has. destruct (dict_get r "id") eqn:Hid; simpl.
  - split; [| done]. intros H. exfalso. revert H.
    revert st. change (never_raises NoIDError
      (b1 <- is_null_missing_blank r "name" ;;
       if b1 then ret false else
       b2 <- is_null_missing_blank r "address" ;;
       if b2 then ret false else
       b3 <- is_null_missing_blank r "zip" ;;
       if b3 then ret false else
       z <- subscript r "zip" ;; ok <- valid_zip_code z ;;
       if negb ok then ret false else ret true)).
    repeat first
      [ apply never_raises_ret | apply is_null_missing_blank_not_NoIDError
      | apply subscript_not_NoIDError | apply valid_zip_code_not_NoIDError
      | apply never_raises_bind; [| intros ?]
      | match goal with |- never_raises _ (if ?b then _ else _) => destruct b end ].
  - done.
Qed.

(** In the loop, a record without id raises a plain [KeyError], from
    [record['id']] in [have_seen] or in [add_to_bad_records], and leaves
    the state as it was. *)
Lemma validate_record_missing_id d st :
  dict_get d "id" = None -> validate_record d st = (Raise KeyError, st).
Proof.
  intros Hid. unfold validate_record.
  destruct (records_seen st !! fingerprint d) eqn:E.
  - erewrite bind_ok by (apply have_seen_hit; by rewrite E).
    unfold add_to_bad_records, bind, subscript. by rewrite Hid.
  - erewrite bind_raise; [done|]. by apply have_seen_miss_noid.
Qed.

(** The loop never raises [NoIDError]: [record_is_valid] is reached only
    after [have_seen] has read [record['id']]. *)
Lemma validate_record_not_NoIDError d : never_raises NoIDError (validate_record d).
Proof.
  intros st. unfold validate_record.
  destruct (records_seen st !! fingerprint d) eqn:E.
  - erewrite bind_ok by (apply have_seen_hit; by rewrite E).
    revert st E. intros st _. revert st.
    apply never_raises_bind; [apply add_to_bad_records_not_NoIDError|].
    intros _. apply add_duplicate_not_NoIDError.
  - destruct (dict_get d "id") eqn:Hid.
    + erewrite bind_ok by (by apply have_seen_miss).
      set (st1 := mkValidator _ _). clearbody st1.
      unfold bind. pose proof (record_is_valid_NoIDError d st1) as [H1 _].
      pose proof (pure_record_is_valid d st1) as Hp.
      destruct (record_is_valid d st1) as [[b|e] st2]; simpl in *.
      * destruct b; simpl; [done | apply add_to_bad_records_not_NoIDError].
      * intros Heq. assert (e = NoIDError) as -> by congruence.
        specialize (H1 eq_refl). congruence.
    + fold (validate_record d). by rewrite validate_record_missing_id.
Qed.

Lemma validate_file_not_NoIDError data : never_raises NoIDError (validate_file data).
Proof.
  induction data as [|d data IH]; [by intros st|].
  apply never_raises_bind; [apply validate_record_not_NoIDError | by intros _].
Qed.

(** C4: on the one-record input [[{'name': 'x'}]] the pass stops with a
    plain [KeyError], not with [NoIDError], although [record_is_valid]
    alone raises [NoIDError] on that record. *)
Theorem missing_id_raises_KeyError :
  let d := [("name", VStr "x")] in
  validate_file [d] init = (Raise KeyError, init)
  /\ record_is_valid d init = (Raise NoIDError, init).
Proof. split; reflexivity. Qed.

(** ** Field validity *)

Lemma is_null_missing_blank_spec r k st :
  str_or_null r k -> is_null_missing_blank r k st = (Ok (is_blank r k), st).
Proof.
  unfold str_or_null, is_null_missing_blank, is_blank, dict_has, subscript.
  destruct (dict_get r k) as [[| | |s| |]|]; simpl; try done.
  intros _. by destruct s.
Qed.

Lemma record_is_valid_spec r st :
  dict_has r "id" = true ->
  str_or_null r "name" -> str_or_null r "address" -> str_or_null r "zip" ->
  record_is_valid r st
  = (Ok (negb (is_blank r "name") && negb (is_blank r "address")
         && negb (is_blank r "zip")
         && match dict_get r "zip" with
            | Some (VStr z) => valid_zip_str z
            | _ => false
            end), st).
Proof.
  intros Hid Hn Ha Hz. unfold record_is_valid. rewrite Hid. simpl.
  erewrite bind_ok by (by apply is_null_missing_blank_spec).
  destruct (is_blank r "name"); [done|].
  erewrite bind_ok by (by apply is_null_missing_blank_spec).
  destruct (is_blank r "address"); [done|].
  erewrite bind_ok by (by apply is_null_missing_blank_spec).
  destruct (is_blank r "zip") eqn:Hb; [done|]. simpl.
  unfold is_blank, str_or_null in *. unfold bind, subscript.
  destruct (dict_get r "zip") as [[| | |z| |]|]; try done. simpl.
  by destruct (valid_zip_str z).
Qed.

(** C8: on a record with an id whose [name], [address] and [zip] hold a
    string or [None] where present, [is_null_missing_blank] returns [True]
    exactly for a field that is absent, [None] or the empty string;
    [record_is_valid] returns [False] when one of the three is blank, and
    [True] when none is and the zip passes [valid_zip_code]. *)
Theorem record_is_valid_blank_fields (r : dict) (st : validator)
    (Hid : dict_has r "id" = true)
    (Hname : str_or_null r "name") (Haddr : str_or_null r "address")
    (Hzip : str_or_null r "zip") :
  (forall k, k ∈ ["name"; "address"; "zip"] ->
     is_null_missing_blank r k st = (Ok (is_blank r k), st))
  /\ (forall k, k ∈ ["name"; "address"; "zip"] -> is_blank r k = true ->
        record_is_valid r st = (Ok false, st))
  /\ (forall n a z,
        dict_get r "name" = Some (VStr n) -> n <> "" ->
        dict_get r "address" = Some (VStr a) -> a <> "" ->
        dict_get r "zip" = Some (VStr z) -> z <> "" ->
        valid_zip_code (VStr z) st = (Ok true, st) ->
        record_is_valid r st = (Ok true, st)).
Proof.
  split; [| split].
  - intros k Hk. apply is_null_missing_blank_spec.
    rewrite !elem_of_cons in Hk. set_unfold.
    destruct Hk as [->|[->|[->|[]]]]; assumption.
  - intros k Hk Hb. rewrite record_is_valid_spec by assumption.
    set_unfold. destruct Hk as [->|[->|[->|[]]]]; rewrite Hb; simpl;
      by repeat match goal with |- context [is_blank r ?x] => destruct (is_blank r x) end.
  - intros n a z Hn Hn0 Ha Ha0 Hz Hz0 Hv.
    rewrite record_is_valid_spec by assumption.
    unfold is_blank. rewrite Hn, Ha, Hz.
    unfold valid_zip_code, ret in Hv. injection Hv as ->.
    destruct n, a, z; done.
Qed.

Lemma record_is_valid_blank_fields_witness :
  let a := [("name", VStr "David Schlachter"); ("address", VStr "Montreal, QC");
            ("zip", VStr "00000"); ("id", VStr "0")] in
  let b := [("name", VStr "David Schlachter"); ("address", VNone);
            ("zip", VStr "00000"); ("id", VStr "0")] in
  record_is_valid a init = (Ok true, init)
  /\ record_is_valid b init = (Ok false, init)
  /\ is_null_missing_blank b "address" init = (Ok true, init).
Proof.
  intros a b. split; [| split].
  - refine (proj2 (proj2 (record_is_valid_blank_fields a init eq_refl I I I))
              "David Schlachter" "Montreal, QC" "00000" eq_refl _ eq_refl _ eq_refl _ eq_refl);
      discriminate.
  - refine (proj1 (proj2 (record_is_valid_blank_fields b init eq_refl I I I))
              "address" _ eq_refl).
    set_solver.
  - refine (proj1 (record_is_valid_blank_fields b init eq_refl I I I) "address" _).
    set_solver.
Defined.

(** ** Identifiers do not interfere *)

Lemma same_but_id_keys r r' : same_but_id r r' -> dict_keys r = dict_keys r'.
Proof.
  induction 1 as [|[k v] [k' v'] r r' [Hk _] _ IH]; simpl in *; [done|].
  by rewrite Hk, IH.
Qed.

Lemma same_but_id_get r r' k :
  same_but_id r r' -> k <> "id" -> dict_get r k = dict_get r' k.
Proof.
  intros H Hne. induction H as [|[k1 v] [k1' v'] r r' [Hk Hv] _ IH]; simpl in *; [done|].
  subst k1'. destruct (String.eqb k1 k) eqn:E; [| done].
  apply String.eqb_eq in E. subst k1. by rewrite Hv.
Qed.

Lemma same_but_id_has r r' k : same_but_id r r' -> dict_has r k = dict_has r' k.
Proof.
  intros H. unfold dict_has.
  induction H as [|[k1 v] [k1' v'] r r' [Hk Hv] _ IH]; simpl in *; [done|].
  subst k1'. by destruct (String.eqb k1 k).
Qed.

Lemma remove_id_same_but_id r r' : same_but_id r r' -> remove_id r = remove_id r'.
Proof.
  intros H. unfold remove_id. rewrite <- (same_but_id_keys _ _ H).
  generalize (@nil (string * value)) as acc.
  induction (dict_keys r) as [|k ks IH]; intros acc; simpl; [done|].
  destruct (String.eqb k "id") eqn:E; simpl; [apply IH|].
  apply String.eqb_neq in E. rewrite (same_but_id_get _ _ k H E). apply IH.
Qed.

Lemma is_null_missing_blank_ext r r' k :
  dict_get r k = dict_get r' k -> is_null_missing_blank r k = is_null_missing_blank r' k.
Proof. intros H. unfold is_null_missing_blank, dict_has, subscript. by rewrite H. Qed.

Lemma record_is_valid_same_but_id r r' :
  same_but_id r r' -> record_is_valid r = record_is_valid r'.
Proof.
  intros H. unfold record_is_valid.
  rewrite (same_but_id_has _ _ "id" H).
  rewrite (is_null_missing_blank_ext r r' "name") by (by apply same_but_id_get).
  rewrite (is_null_missing_blank_ext r r' "address") by (by apply same_but_id_get).
  rewrite (is_null_missing_blank_ext r r' "zip") by (by apply same_but_id_get).
  unfold subscript. by rewrite (same_but_id_get r r' "zip") by done.
Qed.

(** C9: two records with an id that differ only in the value of the id
    have the same fingerprint, get the same answer from [have_seen] in
    every state, and get the same outcome from [record_is_valid]. *)
Theorem id_noninterference (r r' : dict) (st : validator)
    (Hsame : same_but_id r r') (Hid : dict_has r "id" = true) :
  fingerprint r = fingerprint r'
  /\ fst (have_seen r st) = fst (have_seen r' st)
  /\ record_is_valid r st = record_is_valid r' st.
Proof.
  assert (Hfp : fingerprint r = fingerprint r').
  { unfold fingerprint. by rewrite (remove_id_same_but_id _ _ Hsame). }
  split; [exact Hfp|]. split.
  - destruct (records_seen st !! fingerprint r) eqn:E.
    + rewrite !have_seen_hit; [done | by rewrite <- Hfp, E | by rewrite E].
    + pose proof Hid as Hid'. rewrite (same_but_id_has _ _ "id" Hsame) in Hid'.
      unfold dict_has in Hid, Hid'.
      destruct (dict_get r "id") as [v|] eqn:Hv; [|done].
      destruct (dict_get r' "id") as [v'|] eqn:Hv'; [|done].
      rewrite (have_seen_miss r st v E Hv).
      rewrite Hfp in E. by rewrite (have_seen_miss r' st v' E Hv').
  - by rewrite (record_is_valid_same_but_id _ _ Hsame).
Qed.

Lemma id_noninterference_witness :
  let r := [("a", VStr "0"); ("id", VStr "3"); ("zip", VInt 5)] in
  let r' := [("a", VStr "0"); ("id", VInt 4); ("zip", VInt 5)] in
  fingerprint r = fingerprint r'
  /\ fst (have_seen r init) = fst (have_seen r' init)
  /\ record_is_valid r init = record_is_valid r' init.
Proof.
  intros r r'. apply (id_noninterference r r' init); [| reflexivity].
  repeat constructor; simpl; congruence.
Defined.

(** ** ZIP codes *)

#[local] Arguments ascii_dec : simpl never.

Lemma split_nonempty sep s : PyStr.split sep s <> [].
Proof.
  destruct s as [|c s]; simpl; [done|].
  destruct (ascii_dec c sep); [done|]. by destruct (PyStr.split sep s).
Qed.

Lemma join_split sep s : join (String sep "") (PyStr.split sep s) = s.
Proof.
  induction s as [|c s IH]; simpl; [done|].
  pose proof (split_nonempty sep s) as Hne.
  destruct (ascii_dec c sep) as [->|Hc].
  - destruct (PyStr.split sep s) as [|w ws]; [done|].
    simpl in *. by rewrite IH.
  - destruct (PyStr.split sep s) as [|w ws]; [done|].
    simpl in *. destruct ws; simpl in *; by rewrite <- IH.
Qed.

Lemma split_no_sep sep s : PyStr.has_char sep s = false -> PyStr.split sep s = [s].
Proof.
  induction s as [|c s IH]; simpl; [done|].
  destruct (ascii_dec c sep); [done|]. intros H. by rewrite IH.
Qed.

Lemma split_app sep a b :
  PyStr.has_char sep a = false ->
  PyStr.split sep (a +:+ String sep b) = a :: PyStr.split sep b.
Proof.
  induction a as [|c a IH]; simpl.
  - intros _. by destruct (ascii_dec sep sep).
  - destruct (ascii_dec c sep); [done|]. intros H. by rewrite IH.
Qed.

Lemma has_char_app c a b :
  PyStr.has_char c (a +:+ b) = PyStr.has_char c a || PyStr.has_char c b.
Proof. induction a as [|x a IH]; simpl; [done|]. by destruct (ascii_dec x c). Qed.

Lemma all_chars_no_char p c s :
  p c = false -> PyStr.all_chars p s = true -> PyStr.has_char c s = false.
Proof.
  intros Hc. induction s as [|x s IH]; simpl; [done|].
  intros [Hx Hs]%andb_true_iff. destruct (ascii_dec x c) as [->|]; [congruence | auto].
Qed.

Lemma isnumeric_all_chars s :
  PyStr.isnumeric s = true <-> PyStr.all_chars PyStr.isnumeric_char s = true /\ s <> "".
Proof.
  destruct s; simpl; [split; [discriminate | by intros [_ ?]] |].
  split; [done | by intros [? ?]].
Qed.

Lemma length_nonempty s n : String.length s = S n -> s <> "".
Proof. by destruct s. Qed.

(** What [valid_zip_code] accepts: the three formats over the characters
    [str.isnumeric] takes for numeric. *)
Lemma valid_zip_str_spec s :
  valid_zip_str s = true <-> zip_format PyStr.isnumeric_char s.
Proof.
  unfold valid_zip_str, zip_format. split.
  - destruct (PyStr.isnumeric s && _) eqn:E1.
    + intros _. left. apply andb_true_iff in E1 as [Hn Hl].
      apply isnumeric_all_chars in Hn as [Hn _]. split; [done|].
      apply orb_true_iff in Hl as [Hl|Hl]; apply Nat.eqb_eq in Hl; auto.
    + destruct (PyStr.has_char "-" s); [|discriminate].
      pose proof (join_split "-" s) as Hj.
      destruct (PyStr.split "-" s) as [|a0 [|a1 [|? ?]]]; simpl; try discriminate.
      destruct (PyStr.isnumeric a0 && _ && _ && _) eqn:E2; [|discriminate]. intros _. right.
      repeat (apply andb_true_iff in E2 as [E2 ?]).
      exists a0, a1. simpl in Hj.
      repeat match goal with
             | H : PyStr.isnumeric _ = true |- _ => apply isnumeric_all_chars in H as [H _]
             | H : Nat.eqb _ _ = true |- _ => apply Nat.eqb_eq in H
             end.
      done.
  - intros [[Hn Hl]|(a & b & -> & Ha & Hla & Hb & Hlb)].
    + assert (PyStr.isnumeric s = true) as ->.
      { apply isnumeric_all_chars. split; [done|]. destruct Hl; by eapply length_nonempty. }
      destruct Hl as [-> | ->]; done.
    + destruct (_ && _); [done|].
      assert (Hha : PyStr.has_char "-" a = false)
        by (apply (all_chars_no_char PyStr.isnumeric_char); [reflexivity | exact Ha]).
      assert (Hhb : PyStr.has_char "-" b = false)
        by (apply (all_chars_no_char PyStr.isnumeric_char); [reflexivity | exact Hb]).
      rewrite has_char_app. simpl. rewrite orb_true_r.
      rewrite split_app, split_no_sep by done. simpl.
      assert (PyStr.isnumeric a = true) as ->
        by (apply isnumeric_all_chars; split; [done | by eapply length_nonempty]).
      assert (PyStr.isnumeric b = true) as ->
        by (apply isnumeric_all_chars; split; [done | by eapply length_nonempty]).
      by rewrite Hla, Hlb.
Qed.

Lemma all_chars_ext p q s :
  (forall c, PyStr.has_char c s = true -> p c = q c) ->
  PyStr.all_chars p s = PyStr.all_chars q s.
Proof.
  induction s as [|x s IH]; simpl; [done|]. intros H.
  rewrite (H x) by (by destruct (ascii_dec x x)).
  rewrite IH; [done|]. intros c Hc. apply H. by destruct (ascii_dec x c).
Qed.

Lemma isnumeric_char_ascii c :
  (PyStr.code c < 128)%N -> PyStr.isnumeric_char c = PyStr.is_ascii_digit c.
Proof.
  unfold PyStr.isnumeric_char, PyStr.is_ascii_digit. intros H.
  generalize dependent (PyStr.code c). intros n H.
  repeat match goal with
         | |- context [(?a =? ?b)%N] => destruct (N.eqb_spec a b)
         | |- context [(?a <=? ?b)%N] => destruct (N.leb_spec a b)
         end; simpl; try reflexivity; lia.
Qed.

(** On strings of ASCII characters [valid_zip_code] accepts exactly the
    three formats of ASCII digits. *)
Lemma valid_zip_str_ascii s :
  PyStr.all_chars (fun c => (PyStr.code c <? 128)%N) s = true ->
  (valid_zip_str s = true <-> zip_format PyStr.is_ascii_digit s).
Proof.
  intros Hs. rewrite valid_zip_str_spec.
  assert (Hin : forall c, PyStr.has_char c s = true -> (PyStr.code c < 128)%N).
  { clear -Hs. induction s as [|x s IH]; simpl in *; [done|].
    apply andb_true_iff in Hs as [Hx Hs]. intros c.
    destruct (ascii_dec x c) as [->|]; [intros _; by apply N.ltb_lt | by apply IH]. }
  assert (Hsub : forall t, (forall c, PyStr.has_char c t = true -> PyStr.has_char c s = true) ->
    PyStr.all_chars PyStr.isnumeric_char t = PyStr.all_chars PyStr.is_ascii_digit t).
  { intros t Ht. apply all_chars_ext. intros c Hc. apply isnumeric_char_ascii; auto. }
  assert (Hparts : forall a b, s = a +:+ String "-" b ->
    PyStr.all_chars PyStr.isnumeric_char a = PyStr.all_chars PyStr.is_ascii_digit a
    /\ PyStr.all_chars PyStr.isnumeric_char b = PyStr.all_chars PyStr.is_ascii_digit b).
  { intros a b E. split; apply Hsub; intros c Hc; rewrite E, has_char_app; simpl.
    - by rewrite Hc.
    - destruct (ascii_dec "-" c); rewrite ?Hc; by rewrite ?orb_true_r. }
  unfold zip_format. rewrite (Hsub s) by done.
  split; (intros [H|(a & b & E & Ha & Hla & Hb & Hlb)]; [by left | right]);
    destruct (Hparts a b E) as [E1 E2]; exists a, b; (split; [done|]).
  - by rewrite <- E1, <- E2.
  - by rewrite E1, E2.
Qed.

(** The inputs of the class's own test of [valid_zip_code]. *)
Example valid_zip_code_tests :
  map valid_zip_str ["00000"; "00000-0000"; "000000000"; ""; "0a000"; "00";
                     "0000000000000000"; "qwertyuio"]
  = [true; true; true; false; false; false; false; false].
Proof. reflexivity. Qed.

(** C5: [valid_zip_code] returns [True] for the string of five times
    SUPERSCRIPT TWO (U+00B2), which [str.isnumeric] takes for numeric and
    which holds no ASCII digit. *)
Theorem valid_zip_code_accepts_superscripts :
  valid_zip_code (VStr superscript_zip) init = (Ok true, init)
  /\ PyStr.all_chars PyStr.is_ascii_digit superscript_zip = false
  /\ ~ zip_format PyStr.is_ascii_digit superscript_zip.
Proof.
  split; [reflexivity|]. split; [reflexivity|].
  intros [[H _]|(a & b & H & _)]; [discriminate H|].
  destruct a as [|? [|? [|? [|? [|? [|? a]]]]]]; simpl in H; try discriminate H;
    try (injection H; intros; discriminate).
Qed.

(** ** The loop of [validate_file] *)

Lemma validate_record_dup d st v v0 h h0 :
  records_seen st !! fingerprint d = Some v0 ->
  dict_get d "id" = Some v -> hash_key v = Some h -> hash_key v0 = Some h0 ->
  validate_record d st
  = (Ok tt, mkValidator ({[h0]} ∪ ({[h]} ∪ bad_records st)) (records_seen st)).
Proof.
  intros Hreg Hid Hh Hh0. unfold validate_record.
  erewrite bind_ok by (apply have_seen_hit; by rewrite Hreg).
  unfold add_to_bad_records, add_duplicate_to_bad_records, bind, subscript,
    get_state, bad_records_add, put_state, ret.
  rewrite Hid. simpl. rewrite Hh. simpl. fold (fingerprint d).
  rewrite Hreg, Hh0. reflexivity.
Qed.

Lemma validate_record_fresh d st v :
  records_seen st !! fingerprint d = None -> dict_get d "id" = Some v ->
  let st1 := mkValidator (bad_records st) (<[fingerprint d := v]> (records_seen st)) in
  validate_record d st
  = match record_is_valid d st1 with
    | (Ok true, _) => (Ok tt, st1)
    | (Ok false, _) => add_to_bad_records d st1
    | (Raise e, _) => (Raise e, st1)
    end.
Proof.
  intros Hreg Hid st1. unfold validate_record.
  erewrite bind_ok by (by apply have_seen_miss). fold st1.
  unfold bind. pose proof (pure_record_is_valid d st1) as Hp.
  destruct (record_is_valid d st1) as [[[]|e] st2]; simpl in *; by subst.
Qed.

(** What a step of the loop that returns has done. *)
Lemma validate_record_ok d st st' :
  validate_record d st = (Ok tt, st') ->
  (exists v0 v h h0,
      records_seen st !! fingerprint d = Some v0 /\ dict_get d "id" = Some v
      /\ hash_key v = Some h /\ hash_key v0 = Some h0
      /\ st' = mkValidator ({[h0]} ∪ ({[h]} ∪ bad_records st)) (records_seen st))
  \/ (exists v,
        records_seen st !! fingerprint d = None /\ dict_get d "id" = Some v
        /\ records_seen st' = <[fingerprint d := v]> (records_seen st)
        /\ (bad_records st' = bad_records st
            \/ exists h, hash_key v = Some h /\ bad_records st' = {[h]} ∪ bad_records st)).
Proof.
  intros Hrun.
  destruct (dict_get d "id") as [v|] eqn:Hid;
    [| by rewrite validate_record_missing_id in Hrun].
  destruct (records_seen st !! fingerprint d) as [v0|] eqn:Hreg.
  - left. exists v0, v.
    destruct (hash_key v) as [h|] eqn:Hh; destruct (hash_key v0) as [h0|] eqn:Hh0.
    + exists h, h0. erewrite validate_record_dup in Hrun by done.
      injection Hrun as <-. done.
    + exfalso. revert Hrun. unfold validate_record.
      erewrite bind_ok by (apply have_seen_hit; by rewrite Hreg).
      unfold add_to_bad_records, add_duplicate_to_bad_records, bind, subscript,
        get_state, bad_records_add, put_state, ret, raise.
      rewrite Hid. simpl. rewrite Hh. simpl. fold (fingerprint d).
      by rewrite Hreg, Hh0.
    + exfalso. revert Hrun. unfold validate_record.
      erewrite bind_ok by (apply have_seen_hit; by rewrite Hreg).
      unfold add_to_bad_records, bind, subscript, bad_records_add, raise, ret.
      rewrite Hid. simpl. by rewrite Hh.
    + exfalso. revert Hrun. unfold validate_record.
      erewrite bind_ok by (apply have_seen_hit; by rewrite Hreg).
      unfold add_to_bad_records, bind, subscript, bad_records_add, raise, ret.
      rewrite Hid. simpl. by rewrite Hh.
  - right. exists v. rewrite (validate_record_fresh d st v Hreg Hid) in Hrun.
    split; [done|]. split; [done|].
    destruct (record_is_valid d _) as [[[]|e] st2]; [| | done].
    + injection Hrun as <-. by split; [| left].
    + revert Hrun. unfold add_to_bad_records, bind, subscript, bad_records_add,
        get_state, put_state, raise, ret. rewrite Hid. simpl.
      destruct (hash_key v) as [h|]; [| done]. simpl.
      intros [= <-]. split; [done|]. right. by exists h.
Qed.

Lemma flagged_mono d st st' :
  bad_records st ⊆ bad_records st' -> flagged d st -> flagged d st'.
Proof. intros Hsub (v & h & ? & ? & ?). exists v, h. set_solver. Qed.

Lemma loop_inv_step data n d st st' :
  data !! n = Some d -> loop_inv data n st ->
  validate_record d st = (Ok tt, st') -> loop_inv data (S n) st'.
Proof.
  intros Hd Hinv Hrun.
  apply validate_record_ok in Hrun
    as [(v0 & v & h & h0 & Hreg & Hid & Hh & Hh0 & ->)
       |(v & Hreg & Hid & Hreg' & Hbad)].
  - (* the record is a duplicate *)
    intros i di Hi Hdi. simpl.
    destruct (decide (i = n)) as [->|Hne].
    + assert (di = d) as -> by congruence.
      split; [by rewrite Hreg|]. left. exists v, h. set_solver.
    + destruct (Hinv i di ltac:(lia) Hdi) as [Hsome Hcase]. split; [done|].
      destruct Hcase as [Hfl|(vi & Hidi & Hregi & Huniq)].
      * left. eapply flagged_mono; [|exact Hfl]. simpl. set_solver.
      * destruct (decide (fingerprint d = fingerprint di)) as [Hfp|Hfp].
        -- left. exists vi, h0. rewrite Hfp in Hreg.
           assert (v0 = vi) as -> by congruence. set_solver.
        -- right. exists vi. split; [done|]. split; [done|].
           intros j dj Hj Hdj Hfpj.
           destruct (decide (j = n)) as [->|]; [congruence|].
           apply (Huniq j dj); [lia | done | done].
  - (* the record is new *)
    assert (Hnone : forall i di, i < n -> data !! i = Some di ->
              fingerprint di <> fingerprint d).
    { intros i di Hi Hdi Hfp. destruct (Hinv i di Hi Hdi) as [[x Hx] _].
      rewrite Hfp in Hx. congruence. }
    assert (Hsub : bad_records st ⊆ bad_records st').
    { destruct Hbad as [->|(h & _ & ->)]; set_solver. }
    intros i di Hi Hdi. rewrite Hreg'.
    destruct (decide (i = n)) as [->|Hne].
    + assert (di = d) as -> by congruence.
      rewrite lookup_insert_eq. split; [by eexists|].
      right. exists v. split; [done|]. split; [done|].
      intros j dj Hj Hdj Hfpj.
      destruct (decide (j = n)) as [->|]; [done|].
      exfalso. apply (Hnone j dj); [lia | done | done].
    + pose proof (Hnone i di ltac:(lia) Hdi) as Hfp.
      rewrite lookup_insert_ne by done.
      destruct (Hinv i di ltac:(lia) Hdi) as [Hsome Hcase]. split; [done|].
      destruct Hcase as [Hfl|(vi & Hidi & Hregi & Huniq)].
      * left. by eapply flagged_mono.
      * right. exists vi. split; [done|]. split; [done|].
        intros j dj Hj Hdj Hfpj.
        destruct (decide (j = n)) as [->|].
        -- assert (dj = d) as -> by congruence. congruence.
        -- apply (Huniq j dj); [lia | done | done].
Qed.

Lemma loop_inv_run pre data st st' :
  loop_inv (pre ++ data) (length pre) st ->
  validate_file data st = (Ok tt, st') ->
  loop_inv (pre ++ data) (length pre + length data) st'.
Proof.
  revert pre st. induction data as [|d data IH]; intros pre st Hinv Hrun.
  - injection Hrun as <-. by rewrite Nat.add_0_r.
  - simpl in Hrun. unfold bind in Hrun.
    destruct (validate_record d st) as [[[]|e] st1] eqn:Hstep; [| done].
    assert (Hd : ((pre ++ d :: data)%list : list dict) !! length pre = Some d)
      by (by rewrite list_lookup_middle).
    pose proof (loop_inv_step _ _ _ _ _ Hd Hinv Hstep) as Hinv1.
    specialize (IH (pre ++ [d])%list st1).
    rewrite <- !app_assoc, length_app in IH. simpl in IH.
    rewrite Nat.add_1_r in IH. specialize (IH Hinv1 Hrun).
    simpl. by rewrite <- Nat.add_succ_comm.
Qed.

(** C3 (amended): in a step of the loop on a record that has an id, whose
    fingerprint is registered, and whose own id and registered id can both
    be stored in a set, the record's id and the id the registry holds for
    the fingerprint both join the bad-record set, whatever
    [record_is_valid] would say of the record, and the registry stays as
    it was; and after a run from a fresh validator that returns, every
    record whose fingerprint occurs at another position of the input has
    its id in the bad-record set, however many the occurrences. *)
Theorem duplicates_flagged (data : list dict) (st' : validator)
    (i j : nat) (di dj : dict)
    (Hrun : validate_file data init = (Ok tt, st'))
    (Hi : data !! i = Some di) (Hj : data !! j = Some dj) (Hij : i <> j)
    (Hfp : fingerprint di = fingerprint dj) :
  flagged di st' /\ flagged dj st'
  /\ forall d st v v0 h h0,
       records_seen st !! fingerprint d = Some v0 ->
       dict_get d "id" = Some v -> hash_key v = Some h -> hash_key v0 = Some h0 ->
       validate_record d st
       = (Ok tt, mkValidator ({[h0]} ∪ ({[h]} ∪ bad_records st)) (records_seen st)).
Proof.
  assert (Hinv : loop_inv data (length data) st').
  { apply (loop_inv_run [] data init st'); [| exact Hrun].
    intros k dk Hk. simpl in Hk. lia. }
  assert (Hfl : forall a b da db, data !! a = Some da -> data !! b = Some db ->
            a <> b -> fingerprint da = fingerprint db -> flagged da st').
  { intros a b da db Ha Hb Hab Hfpab.
    destruct (Hinv a da) as [_ [Hf|(v & _ & _ & Huniq)]];
      [by eapply lookup_lt_Some | done | done |].
    exfalso. apply Hab. symmetry. apply (Huniq b db); [by eapply lookup_lt_Some | done | done]. }
  split; [by apply (Hfl i j di dj)|].
  split; [by apply (Hfl j i dj di)|].
  intros d st v v0 h h0. apply validate_record_dup.
Qed.

Lemma duplicates_flagged_witness :
  let r := fun i => [("name", VStr "a"); ("address", VStr "b");
                     ("zip", VStr "12345"); ("id", VStr i)] in
  let data := [r "3"; r "4"; r "5"] in
  let st' := snd (validate_file data init) in
  record_is_valid (r "4") init = (Ok true, init)
  /\ flagged (r "3") st' /\ flagged (r "4") st' /\ flagged (r "5") st'.
Proof.
  intros r data st'. split; [reflexivity|].
  destruct (duplicates_flagged data st' 0 1 (r "3") (r "4")) as (H1 & H2 & _);
    [reflexivity | reflexivity | reflexivity | lia | reflexivity |].
  destruct (duplicates_flagged data st' 1 2 (r "4") (r "5")) as (_ & H3 & _);
    [reflexivity | reflexivity | reflexivity | lia | reflexivity |].
  by repeat split.
Defined.

(** C3, as first stated, fails on a duplicate without id: the second
    record below has the fields of the first, so its fingerprint is
    registered when the loop reaches it, but [add_to_bad_records] raises
    on [record['id']] before [add_duplicate_to_bad_records] runs: the run
    ends there and the bad-record set stays empty, the registered id of
    the first occurrence included. *)
Lemma duplicates_flagged_counterexample :
  let r1 := [("name", VStr "a"); ("address", VStr "b"); ("zip", VStr "12345");
             ("id", VStr "1")] in
  let r2 := [("name", VStr "a"); ("address", VStr "b"); ("zip", VStr "12345")] in
  let st1 := snd (validate_file [r1] init) in
  validate_file [r1] init = (Ok tt, st1)
  /\ records_seen st1 !! fingerprint r2 = Some (VStr "1")
  /\ have_seen r2 st1 = (Ok true, st1)
  /\ validate_file [r1; r2] init = (Raise KeyError, st1)
  /\ HStr "1" ∉ bad_records st1.
Proof.
  intros r1 r2 st1. repeat split; try reflexivity.
  assert (Hbad : bad_records st1 = ∅) by reflexivity.
  rewrite Hbad. apply not_elem_of_empty.
Qed.

(** ** The scenario of the class's end-to-end test *)

Lemma validate_file_cons d data st :
  validate_file (d :: data) st
  = match validate_record d st with
    | (Ok _, st1) => validate_file data st1
    | (Raise e, st1) => (Raise e, st1)
    end.
Proof. reflexivity. Qed.





(** ** [repr] is injective *)

Lemma string_app_cons c (a b : string) : String c a +:+ b = String c (a +:+ b).
Proof. reflexivity. Qed.

Lemma string_app_nil_l (b : string) : "" +:+ b = b.
Proof. reflexivity. Qed.

Ltac sapp := rewrite ?string_app_cons, ?string_app_nil_l in *.

Lemma string_app_assoc (a b c : string) : (a +:+ b) +:+ c = a +:+ (b +:+ c).
Proof. induction a as [|x a IH]; sapp; [done | by rewrite IH]. Qed.

Lemma string_app_nil_r (a : string) : a +:+ "" = a.
Proof. induction a as [|x a IH]; sapp; [done | by rewrite IH]. Qed.

(** *** Integers *)

Lemma string_of_uint_digits u :
  PyStr.all_chars PyStr.is_ascii_digit (NilEmpty.string_of_uint u) = true.
Proof. induction u; simpl; auto. Qed.


Lemma digits_prefix_unique s s' r r' :
  PyStr.all_chars PyStr.is_ascii_digit s = true ->
  PyStr.all_chars PyStr.is_ascii_digit s' = true ->
  no_digit_head r -> no_digit_head r' ->
  s +:+ r = s' +:+ r' -> s = s' /\ r = r'.
Proof.
  revert s'. induction s as [|c s IH]; intros [|c' s'] Hs Hs' Hr Hr' E;
    sapp; simpl in *.
  - done.
  - subst r. simpl in Hr. apply andb_true_iff in Hs' as [Hc _]. congruence.
  - subst r'. simpl in Hr'. apply andb_true_iff in Hs as [Hc _]. congruence.
  - apply andb_true_iff in Hs as [_ Hs]. apply andb_true_iff in Hs' as [_ Hs'].
    injection E as -> E. destruct (IH s' Hs Hs' Hr Hr' E) as [-> ->]. done.
Qed.

Lemma string_of_uint_inj u u' :
  NilEmpty.string_of_uint u = NilEmpty.string_of_uint u' -> u = u'.
Proof.
  intros E. apply (f_equal NilEmpty.uint_of_string) in E.
  rewrite !NilEmpty.usu in E. congruence.
Qed.

(** [repr] of an integer: an optional minus sign and the digits. *)
Lemma repr_int_shape z :
  exists u, u <> Decimal.Nil
    /\ ((Z.to_int z = Decimal.Pos u
         /\ PyStr.repr_int z = NilEmpty.string_of_uint u)
        \/ (Z.to_int z = Decimal.Neg u
            /\ PyStr.repr_int z = String "-" (NilEmpty.string_of_uint u))).
Proof.
  unfold PyStr.repr_int. destruct z as [|p|p]; simpl.
  - exists (Decimal.D0 Decimal.Nil). split; [done|]. by left.
  - exists (Pos.to_uint p). pose proof (DecimalPos.Unsigned.to_uint_nonnil p) as Hn.
    split; [done|]. left. split; [done|].
    unfold NilZero.string_of_uint. by destruct (Pos.to_uint p).
  - exists (Pos.to_uint p). pose proof (DecimalPos.Unsigned.to_uint_nonnil p) as Hn.
    split; [done|]. right. split; [done|].
    unfold NilZero.string_of_uint. by destruct (Pos.to_uint p).
Qed.

Lemma string_of_uint_head u r :
  u <> Decimal.Nil ->
  exists c s, NilEmpty.string_of_uint u +:+ r = String c s
              /\ PyStr.is_ascii_digit c = true.
Proof. destruct u; [done|..]; intros _; simpl; sapp; eauto. Qed.

Lemma repr_int_inj_tail z z' r r' :
  no_digit_head r -> no_digit_head r' ->
  PyStr.repr_int z +:+ r = PyStr.repr_int z' +:+ r' -> z = z' /\ r = r'.
Proof.
  intros Hr Hr' E.
  destruct (repr_int_shape z) as (u & Hu & Hz).
  destruct (repr_int_shape z') as (u' & Hu' & Hz').
  destruct (string_of_uint_head u r Hu) as (c & s & Hc & Hd).
  destruct (string_of_uint_head u' r' Hu') as (c' & s' & Hc' & Hd').
  assert (Hcore : NilEmpty.string_of_uint u +:+ r = NilEmpty.string_of_uint u' +:+ r'
                  -> u = u' /\ r = r').
  { intros E'. apply digits_prefix_unique in E'
      as [E1 E2]; auto using string_of_uint_digits.
    split; [by apply string_of_uint_inj | done]. }
  destruct Hz as [[Hs Hz]|[Hs Hz]], Hz' as [[Hs' Hz']|[Hs' Hz']];
    rewrite Hz, Hz' in E; sapp.
  - destruct (Hcore E) as [-> ->]. split; [|done].
    apply DecimalZ.to_int_inj. congruence.
  - rewrite Hc in E. injection E as -> _. done.
  - rewrite Hc' in E. injection E as <- _. done.
  - injection E as E. destruct (Hcore E) as [-> ->]. split; [|done].
    apply DecimalZ.to_int_inj. congruence.
Qed.

(** *** Strings *)

#[local] Arguments ascii_of_N : simpl never.

Lemma hex_roundtrip c :
  ascii_of_N (16 * hex_value (PyStr.hex_digit (PyStr.code c / 16))
              + hex_value (PyStr.hex_digit (PyStr.code c mod 16))) = c.
Proof. destruct c as [[] [] [] [] [] [] [] []]; vm_compute; reflexivity. Qed.

Lemma unescape_escape q s r :
  q = PyStr.squote \/ q = PyStr.dquote ->
  unescape q (PyStr.escape q s +:+ String q r) = Some (s, r).
Proof.
  intros Hq. induction s as [|c s IH]; simpl; sapp.
  - simpl. by destruct (ascii_dec q q).
  - unfold PyStr.escape_char.
    repeat match goal with
           | |- context [ascii_dec c ?x] => destruct (ascii_dec c x) as [->|]
           | |- context [if PyStr.isprintable c then _ else _] =>
               destruct (PyStr.isprintable c)
           end; sapp; simpl.
    all: repeat match goal with
           | |- context [ascii_dec ?a ?b] =>
               first [ destruct (ascii_dec a b) as [?|?]; [| congruence]
                     | destruct (ascii_dec a b) as [?|?]; [congruence |]
                     | destruct (ascii_dec a b) as [?|?];
                       [exfalso; destruct Hq; subst; discriminate |]
                     | destruct (ascii_dec a b) as [?|?];
                       [exfalso; discriminate |] ]
           end.
    all: try rewrite hex_roundtrip.
    all: try (rewrite IH; reflexivity).
Qed.

Lemma quote_of_cases s :
  PyStr.quote_of s = PyStr.squote \/ PyStr.quote_of s = PyStr.dquote.
Proof. unfold PyStr.quote_of. destruct (_ && _); auto. Qed.

Lemma repr_str_inj_tail s s' r r' :
  PyStr.repr_str s +:+ r = PyStr.repr_str s' +:+ r' -> s = s' /\ r = r'.
Proof.
  unfold PyStr.repr_str. cbv zeta. sapp. rewrite !string_app_assoc. sapp.
  intros E. injection E as Hq E. rewrite <- Hq in E.
  apply (f_equal (unescape (PyStr.quote_of s))) in E.
  rewrite !unescape_escape in E by apply quote_of_cases.
  by injection E.
Qed.

(** *** Values *)

Lemma value_nested_ind (P : value -> Prop) :
  P VNone -> (forall b, P (VBool b)) -> (forall z, P (VInt z)) ->
  (forall s, P (VStr s)) ->
  (forall l, Forall P l -> P (VList l)) ->
  (forall d, Forall (fun kv => P (snd kv)) d -> P (VDict d)) ->
  forall v, P v.
Proof.
  intros HN HB HI HS HL HD. fix IH 1. intros [ |b|z|s|l|d].
  - exact HN.
  - apply HB.
  - apply HI.
  - apply HS.
  - apply HL. revert l. fix IHl 1. intros [|x l]; constructor; [apply IH | apply IHl].
  - apply HD. revert d. fix IHd 1. intros [|[k x] d]; constructor; [apply IH | apply IHd].
Qed.

Lemma head_kind_digit c : PyStr.is_ascii_digit c = true -> head_kind c = 2.
Proof. unfold head_kind. by intros ->. Qed.

Lemma repr_head v r :
  exists c s, repr v +:+ r = String c s /\ head_kind c = kind v.
Proof.
  destruct v as [ |[]|z|s| |]; simpl; sapp; try (by eexists _, _).
  - destruct (repr_int_shape z) as (u & Hu & [[_ ->]|[_ ->]]); sapp.
    + destruct (string_of_uint_head u r Hu) as (c & t & -> & Hc).
      exists c, t. split; [done | by apply head_kind_digit].
    + by eexists _, _.
  - unfold PyStr.repr_str. cbv zeta. sapp. eexists _, _. split; [done|].
    by destruct (quote_of_cases s) as [-> | ->].
Qed.

Lemma repr_item_head kv r :
  exists c s, repr_item kv +:+ r = String c s /\ head_kind c = 3.
Proof.
  unfold repr_item, PyStr.repr_str. cbv zeta. sapp. eexists _, _. split; [done|].
  by destruct (quote_of_cases (fst kv)) as [-> | ->].
Qed.

Lemma join_cons_app (x : string) (l : list string) (t : string) :
  join ", " (x :: l) +:+ t
  = x +:+ match l with [] => t | _ => String "," (String " " (join ", " l +:+ t)) end.
Proof. destruct l; [done|]. cbn [join]. by rewrite !string_app_assoc. Qed.

Lemma join_inj {A} (p : A -> string) (close : ascii) (l : list A) :
  close <> ","%char ->
  (forall a t s, p a +:+ t <> String close s) ->
  Forall (fun a => forall a' t t', sep_tail close t -> sep_tail close t' ->
                     p a +:+ t = p a' +:+ t' -> a = a' /\ t = t') l ->
  forall l' r r',
    join ", " (map p l) +:+ String close r = join ", " (map p l') +:+ String close r' ->
    l = l' /\ r = r'.
Proof.
  intros Hclose Hhead Hall. induction Hall as [|x l Hx Hall IH]; intros [|x' l'] r r' E.
  - simpl in E. sapp. by injection E.
  - exfalso. cbn [map] in E. rewrite join_cons_app in E. simpl in E. sapp.
    symmetry in E. by apply Hhead in E.
  - exfalso. cbn [map] in E. rewrite join_cons_app in E. simpl in E. sapp.
    by apply Hhead in E.
  - cbn [map] in E. rewrite !join_cons_app in E.
    apply Hx in E as [-> E];
      [| destruct (map p l); eexists; eauto | destruct (map p l'); eexists; eauto].
    destruct l as [|y l], l' as [|y' l']; cbn [map] in E.
    + by injection E as ->.
    + injection E as E _. done.
    + injection E as E _. done.
    + injection E as E. destruct (IH (y' :: l') r r' E) as [-> ->]. done.
Qed.

Lemma sep_tail_no_digit close t :
  PyStr.is_ascii_digit close = false -> sep_tail close t -> no_digit_head t.
Proof. intros Hc [s [-> | ->]]; done. Qed.

(** [repr] is uniquely readable: two values whose texts, followed by
    texts that do not start with a digit, are equal, are equal. *)
Lemma repr_inj_tail v :
  forall v' r r', no_digit_head r -> no_digit_head r' ->
    repr v +:+ r = repr v' +:+ r' -> v = v' /\ r = r'.
Proof.
  induction v as [ |b|z|s|l IHl|d IHd] using value_nested_ind;
    intros v' r r' Hr Hr' E.
  all: match type of E with repr ?v +:+ _ = _ =>
         assert (Hk : kind v' = kind v);
         [ destruct (repr_head v' r') as (c' & s' & Hc' & Hk');
           destruct (repr_head v r) as (c & s0 & Hc & Hk0);
           rewrite Hc, Hc' in E; injection E as -> _; congruence |]
       end.
  all: destruct v' as [ |b'|z'|s'|l'|d']; try discriminate Hk; clear Hk.
  - simpl in E. sapp. by injection E.
  - destruct b, b'; simpl in E; sapp; try discriminate E; by injection E.
  - simpl in E. by apply repr_int_inj_tail in E as [-> ->].
  - simpl in E. by apply repr_str_inj_tail in E as [-> ->].
  - simpl in E. rewrite !string_app_assoc in E. sapp. injection E as E.
    apply (join_inj repr "]") in E as [-> ->]; [done | done | |].
    + intros a t s0 Ea. destruct (repr_head a t) as (c & s1 & Hc & Hkc).
      rewrite Hc in Ea. injection Ea as -> _. by destruct a.
    + eapply Forall_impl; [exact IHl|]. intros a Ha a' t t' Ht Ht'.
      apply Ha; by apply (sep_tail_no_digit "]").
  - simpl in E. rewrite !string_app_assoc in E. sapp. injection E as E.
    assert (Hmap : forall d0 : dict,
              map (fun '(k, x) => PyStr.repr_str k +:+ ": " +:+ repr x) d0
              = map repr_item d0).
    { intros d0. apply map_ext. by intros [k x]. }
    rewrite !Hmap in E.
    apply (join_inj repr_item "}") in E as [-> ->]; [done | done | |].
    + intros a t s0 Ea. destruct (repr_item_head a t) as (c & s1 & Hc & Hkc).
      rewrite Hc in Ea. injection Ea as -> _. done.
    + eapply Forall_impl; [exact IHd|]. intros [k x] Hx [k' x'] t t' Ht Ht' Ei.
      unfold repr_item in Ei. simpl in Ei. rewrite !string_app_assoc in Ei.
      apply repr_str_inj_tail in Ei as [-> Ei]. sapp. injection Ei as Ei.
      simpl in Hx.
      apply Hx in Ei as [E1 E2]; [by subst | by apply (sep_tail_no_digit "}")..].
Qed.

Lemma repr_inj v v' : repr v = repr v' -> v = v'.
Proof.
  intros E. apply (repr_inj_tail v v' "" ""); [done | done |].
  by rewrite !string_app_nil_r.
Qed.

(** * Further properties *)

(** ** Dicts and [remove_id] *)

Lemma dict_get_set d k v k' :
  dict_get (dict_set d k v) k' = if String.eqb k k' then Some v else dict_get d k'.
Proof.
  induction d as [|[k0 v0] d IH]; simpl; [done|].
  destruct (String.eqb_spec k0 k) as [->|Hne]; simpl.
  - by destruct (String.eqb k k').
  - rewrite IH. destruct (String.eqb_spec k0 k') as [->|Hne']; [|done].
    destruct (String.eqb_spec k k'); congruence.
Qed.

Lemma dict_get_in_keys d k : is_Some (dict_get d k) <-> k ∈ dict_keys d.
Proof.
  induction d as [|[k0 v0] d IH]; simpl.
  - split; [by intros [? ?] | by intros ?%elem_of_nil].
  - rewrite elem_of_cons. destruct (String.eqb k0 k) eqn:E.
    + apply String.eqb_eq in E as ->. split; [by left | by eexists].
    + apply String.eqb_neq in E. rewrite IH. naive_solver.
Qed.

Lemma dict_get_app_notin (pre d : dict) k :
  k ∉ dict_keys pre -> dict_get (pre ++ d) k = dict_get d k.
Proof.
  induction pre as [|[k0 v0] pre IH]; simpl; [done|].
  rewrite not_elem_of_cons. intros [Hne Hnot].
  destruct (String.eqb k0 k) eqn:E; [| by apply IH].
  apply String.eqb_eq in E. congruence.
Qed.

Lemma dict_set_new (d : dict) k v :
  k ∉ dict_keys d -> dict_set d k v = (d ++ [(k, v)])%list.
Proof.
  induction d as [|[k0 v0] d IH]; simpl; [done|].
  rewrite not_elem_of_cons. intros [Hne Hnot].
  destruct (String.eqb k0 k) eqn:E.
  - apply String.eqb_eq in E. congruence.
  - by rewrite IH.
Qed.

Lemma without_id_keys (d : dict) k : k ∈ dict_keys (without_id d) -> k ∈ dict_keys d.
Proof.
  unfold without_id, dict_keys. rewrite !list_elem_of_fmap.
  intros (kv & -> & Hin). exists kv. split; [done|].
  by apply list_elem_of_filter in Hin as [_ Hin].
Qed.

Lemma remove_id_fold (pre post : dict) :
  NoDup (dict_keys (pre ++ post)) ->
  fold_left
    (fun d k =>
       if negb (String.eqb k "id") then
         match dict_get (pre ++ post) k with
         | Some v => dict_set d k v
         | None => d
         end
       else d)
    (dict_keys post) (without_id pre)
  = without_id (pre ++ post).
Proof.
  revert pre. induction post as [|[k v] post IH]; intros pre Hnd.
  - by rewrite app_nil_r.
  - cbn [dict_keys map fold_left fst].
    assert (Hk : k ∉ dict_keys pre).
    { unfold dict_keys in *. rewrite map_app in Hnd. cbn [map fst] in Hnd.
      apply NoDup_app in Hnd as (_ & Hdisj & _). intros Hin.
      apply (Hdisj k Hin). by left. }
    assert (Hget : dict_get (pre ++ (k, v) :: post) k = Some v).
    { rewrite dict_get_app_notin by done. simpl. by rewrite String.eqb_refl. }
    assert (Hstep :
      (if negb (String.eqb k "id") then
         match dict_get (pre ++ (k, v) :: post) k with
         | Some v0 => dict_set (without_id pre) k v0
         | None => without_id pre
         end
       else without_id pre) = without_id (pre ++ [(k, v)])).
    { rewrite Hget. unfold without_id at 3. rewrite filter_app. fold (without_id pre).
      destruct (String.eqb_spec k "id") as [->|Hne]; simpl.
      - rewrite filter_cons_False by (simpl; auto). by rewrite filter_nil, app_nil_r.
      - rewrite filter_cons_True by done. rewrite filter_nil.
        apply dict_set_new. intros Hin. by apply Hk, without_id_keys. }
    rewrite Hstep.
    replace (pre ++ (k, v) :: post)%list with ((pre ++ [(k, v)]) ++ post)%list in *
      by (by rewrite <- app_assoc).
    by apply IH.
Qed.

Lemma remove_id_without_id r : wf_dict r -> remove_id r = without_id r.
Proof. intros Hwf. apply (remove_id_fold [] r Hwf). Qed.

Lemma without_id_get (d : dict) k :
  dict_get (without_id d) k = if String.eqb k "id" then None else dict_get d k.
Proof.
  unfold without_id. induction d as [|[k0 v0] d IH]; simpl.
  - by destruct (String.eqb k "id").
  - destruct (decide (k0 = "id")) as [->|Hne].
    + rewrite filter_cons_False by (simpl; auto). rewrite IH.
      destruct (String.eqb_spec k "id") as [Heq|Hk]; [done|].
      destruct (String.eqb_spec "id" k); congruence.
    + rewrite filter_cons_True by done. simpl. rewrite IH.
      destruct (String.eqb_spec k0 k) as [Heq|Hk]; [|done].
      destruct (String.eqb_spec k "id"); congruence.
Qed.

Lemma fingerprint_eq_without_id (r r' : dict) :
  wf_dict r -> wf_dict r' ->
  (fingerprint r = fingerprint r' <-> without_id r = without_id r').
Proof.
  intros Hwf Hwf'. unfold fingerprint, str_dict.
  rewrite (remove_id_without_id r Hwf), (remove_id_without_id r' Hwf').
  split; [| by intros ->].
  intros E. apply repr_inj in E. by injection E.
Qed.

(** X1: for dicts without repeated keys, two records get the same
    fingerprint exactly when their items other than the id are the same
    list: the same keys in the same order with the same values, types
    included. *)
Theorem fingerprint_injective (r r' : dict) (Hwf : wf_dict r) (Hwf' : wf_dict r') :
  fingerprint r = fingerprint r' <-> without_id r = without_id r'.
Proof. by apply fingerprint_eq_without_id. Qed.

Lemma fingerprint_injective_witness :
  let r := [("a", VInt 0); ("id", VStr "7"); ("b", VNone)] in
  let r' := [("id", VInt 8); ("a", VInt 0); ("b", VNone)] in
  fingerprint r = fingerprint r' <-> without_id r = without_id r'.
Proof.
  intros r r'. apply fingerprint_injective;
    unfold wf_dict; simpl; repeat constructor; set_solver.
Defined.

(** X2: on a dict without repeated keys [remove_id] returns the items
    other than the one under ["id"], in their order; the result has no
    ["id"] and answers every other key as the record does. *)
Theorem remove_id_spec (r : dict) (Hwf : wf_dict r) :
  remove_id r = without_id r
  /\ dict_get (remove_id r) "id" = None
  /\ (forall k, k <> "id" -> dict_get (remove_id r) k = dict_get r k)
  /\ remove_id (remove_id r) = remove_id r.
Proof.
  pose proof (remove_id_without_id r Hwf) as E. rewrite !E.
  split; [done|]. split; [by rewrite without_id_get|]. split.
  - intros k Hk. rewrite without_id_get.
    apply String.eqb_neq in Hk. by rewrite Hk.
  - assert (Hwf2 : wf_dict (without_id r)).
    { unfold wf_dict, without_id, dict_keys in *. clear E.
      induction r as [|[k v] r IH]; simpl; [constructor|].
      apply NoDup_cons in Hwf as [Hk Hwf].
      destruct (decide (k = "id")) as [->|Hne].
      - rewrite filter_cons_False by (simpl; auto). by apply IH.
      - rewrite filter_cons_True by done. simpl.
        apply NoDup_cons. split; [| by apply IH].
        intros Hin. apply Hk. by apply (without_id_keys r k). }
    rewrite (remove_id_without_id _ Hwf2). unfold without_id.
    apply list_filter_filter_l. done.
Qed.

Lemma remove_id_spec_witness :
  let r := [("name", VStr "x"); ("id", VStr "7"); ("zip", VInt 5)] in
  remove_id r = [("name", VStr "x"); ("zip", VInt 5)]
  /\ dict_get (remove_id r) "id" = None.
Proof.
  intros r.
  assert (Hwf : wf_dict r) by (unfold wf_dict; simpl; repeat constructor; set_solver).
  destruct (remove_id_spec r Hwf) as (H1 & H2 & _). split; [exact H1 | exact H2].
Defined.

Lemma remove_id_fold_get (r : dict) (keys : list string) (acc : dict) k :
  (forall k', k' ∈ keys -> is_Some (dict_get r k')) ->
  dict_get
    (fold_left
       (fun d k0 =>
          if negb (String.eqb k0 "id") then
            match dict_get r k0 with
            | Some v => dict_set d k0 v
            | None => d
            end
          else d)
       keys acc) k
  = if decide (k <> "id" /\ k ∈ keys) then dict_get r k else dict_get acc k.
Proof.
  revert acc. induction keys as [|k0 ks IH]; intros acc Hall.
  - simpl. rewrite decide_False; [done|]. intros [_ H]. by apply elem_of_nil in H.
  - cbn [fold_left]. rewrite IH by (intros k' Hk'; apply Hall; by right).
    destruct (Hall k0 ltac:(by left)) as [v0 Hv0]. rewrite Hv0.
    destruct (String.eqb_spec k0 "id") as [->|Hne]; simpl.
    + repeat case_decide; try done; exfalso; set_solver.
    + rewrite dict_get_set.
      destruct (String.eqb_spec k0 k) as [Heq|Hk].
      * subst k0. repeat case_decide; try done; try congruence; exfalso; set_solver.
      * repeat case_decide; try done; exfalso; set_solver.
Qed.

Lemma remove_id_get r k :
  dict_get (remove_id r) k = if String.eqb k "id" then None else dict_get r k.
Proof.
  unfold remove_id. rewrite remove_id_fold_get
    by (intros k' Hk'; by apply dict_get_in_keys).
  destruct (String.eqb_spec k "id") as [Heq|Hne].
  - by rewrite decide_False by (by intros [? _]).
  - case_decide as H; [done|]. simpl.
    destruct (dict_get r k) eqn:E; [|done].
    exfalso. apply H. split; [done|]. apply dict_get_in_keys. by rewrite E.
Qed.

(** X3: two records with equal fingerprints hold the same value, of the
    same type, under every key other than ["id"]; so records that differ
    in one such field, in value or in type, never share a fingerprint. *)
Theorem fingerprint_determines_fields (r r' : dict) (k : string)
    (Hfp : fingerprint r = fingerprint r') (Hk : k <> "id") :
  dict_get r k = dict_get r' k.
Proof.
  unfold fingerprint, str_dict in Hfp. apply repr_inj in Hfp. injection Hfp as E.
  pose proof (remove_id_get r k) as H1. pose proof (remove_id_get r' k) as H2.
  apply String.eqb_neq in Hk. rewrite Hk in H1, H2. congruence.
Qed.

Lemma fingerprint_determines_fields_witness :
  dict_get [("a", VStr "0"); ("id", VStr "3")] "a"
  = dict_get [("id", VStr "4"); ("a", VStr "0")] "a".
Proof.
  apply fingerprint_determines_fields; [reflexivity | discriminate].
Defined.



(** ** [add_to_bad_records] *)

(** X5: [add_to_bad_records] raises [KeyError] on a record without id and
    [TypeError] on an id that cannot be hashed, in both cases leaving the
    state as it was; otherwise it adds the id to the bad-record set and
    leaves the seen-registry alone.  Calling it a second time changes
    nothing more. *)
Theorem add_to_bad_records_idempotent (d : dict) (st : validator) :
  add_to_bad_records d st
  = match dict_get d "id" with
    | None => (Raise KeyError, st)
    | Some v =>
        match hash_key v with
        | None => (Raise TypeError, st)
        | Some h => (Ok tt, mkValidator ({[h]} ∪ bad_records st) (records_seen st))
        end
    end
  /\ add_to_bad_records d (snd (add_to_bad_records d st)) = add_to_bad_records d st.
Proof.
  assert (Hspec : forall st0, add_to_bad_records d st0
    = match dict_get d "id" with
      | None => (Raise KeyError, st0)
      | Some v =>
          match hash_key v with
          | None => (Raise TypeError, st0)
          | Some h => (Ok tt, mkValidator ({[h]} ∪ bad_records st0) (records_seen st0))
          end
      end).
  { intros st0. unfold add_to_bad_records, bind, subscript, bad_records_add.
    destruct (dict_get d "id") as [v|]; [|done]. simpl. by destruct (hash_key v). }
  split; [apply Hspec|]. rewrite !Hspec.
  destruct (dict_get d "id") as [v|]; [|done].
  destruct (hash_key v) as [h|]; [|done]. simpl. do 2 f_equal. set_solver.
Qed.

(** ** [have_seen] and [record_is_valid] on their own *)

(** X6: on a record without id [have_seen] raises [KeyError] and
    registers nothing when the fingerprint is new, and returns [True],
    without an error, when the fingerprint is registered. *)
Theorem have_seen_missing_id (d : dict) (st : validator)
    (Hid : dict_get d "id" = None) :
  have_seen d st
  = if decide (is_Some (records_seen st !! fingerprint d))
    then (Ok true, st) else (Raise KeyError, st).
Proof.
  case_decide as H.
  - by apply have_seen_hit.
  - apply have_seen_miss_noid; [| done].
    destruct (records_seen st !! fingerprint d) eqn:E; [| done].
    exfalso. apply H. by eexists.
Qed.

Lemma have_seen_missing_id_witness :
  have_seen [("name", VStr "x")] init = (Raise KeyError, init).
Proof. apply (have_seen_missing_id [("name", VStr "x")] init). reflexivity. Defined.

(** X7: [record_is_valid] raises [NoIDError] exactly on a record without
    id, and [NoIDError] is the only instance of [KeyError] it raises: an
    exception of the plain class [KeyError] never comes out of it, as
    [record['zip']] is read only after the key is known to be present. *)
Theorem record_is_valid_errors (r : dict) (st : validator) :
  (fst (record_is_valid r st) = Raise NoIDError <-> dict_get r "id" = None)
  /\ (forall e, fst (record_is_valid r st) = Raise e ->
                is_KeyError e = true -> e = NoIDError).
Proof.
  split; [apply record_is_valid_NoIDError|].
  assert (Hno : fst (record_is_valid r st) <> Raise KeyError).
  { unfold record_is_valid, dict_has.
    destruct (dict_get r "id"); simpl; [| done].
    assert (Hblank : forall k st0,
      is_null_missing_blank r k st0 = (Ok true, st0)
      \/ (is_null_missing_blank r k st0 = (Ok false, st0) /\ is_Some (dict_get r k))
      \/ is_null_missing_blank r k st0 = (Raise TypeError, st0)).
    { intros k st0. unfold is_null_missing_blank, dict_has, subscript, bind, ret, raise.
      destruct (dict_get r k) as [[ |b|z|s|l|d]|]; simpl; auto.
      - destruct s; simpl; eauto.
      - destruct l; simpl; eauto.
      - destruct d; simpl; eauto. }
    unfold bind at 1.
    destruct (Hblank "name" st) as [-> | [[-> _] | ->]]; [done | | done].
    unfold bind at 1.
    destruct (Hblank "address" st) as [-> | [[-> _] | ->]]; [done | | done].
    unfold bind at 1.
    destruct (Hblank "zip" st) as [-> | [[-> [z Hz]] | ->]]; [done | | done].
    unfold bind, subscript. rewrite Hz. simpl.
    destruct z; simpl; try done. by destruct (valid_zip_str s). }
  intros e He Hk. destruct e; [by rewrite He in Hno | done | done | done].
Qed.

(** X8: the checks of [record_is_valid] stop at the first that fails: a
    record with an id and a blank name is invalid whatever its address and
    zip hold, also values on which those checks would raise. *)
Theorem record_is_valid_blank_name (r : dict) (st : validator)
    (Hid : dict_has r "id" = true) (Hname : is_blank r "name" = true) :
  record_is_valid r st = (Ok false, st).
Proof.
  unfold record_is_valid. rewrite Hid. simpl.
  rewrite (bind_ok (is_null_missing_blank r "name") _ st true st); [done|].
  unfold is_blank in Hname.
  unfold is_null_missing_blank, dict_has, subscript, bind, ret.
  destruct (dict_get r "name") as [[ |b|z|s|l|d]|]; simpl; try done.
  by destruct s.
Qed.

Lemma record_is_valid_blank_name_witness :
  record_is_valid [("id", VStr "1"); ("name", VStr ""); ("zip", VInt 5)] init
  = (Ok false, init).
Proof. apply record_is_valid_blank_name; reflexivity. Defined.

(** ** ZIP codes, in general *)

(** X9: [valid_zip_code] accepts a string exactly when it has one of the
    three formats built from the characters [str.isnumeric] accepts: five
    or nine of them, or five, a hyphen and four. *)
Theorem valid_zip_code_formats (s : string) (st : validator) :
  valid_zip_code (VStr s) st = (Ok true, st) <-> zip_format PyStr.isnumeric_char s.
Proof.
  rewrite <- valid_zip_str_spec. unfold valid_zip_code, ret.
  split; [by intros [= ->] | by intros ->].
Qed.

(** X10: on a string of ASCII characters [valid_zip_code] accepts exactly
    five ASCII digits, nine ASCII digits, or five ASCII digits, a hyphen
    and four ASCII digits. *)
Theorem valid_zip_code_ascii (s : string) (st : validator)
    (Hascii : PyStr.all_chars (fun c => (PyStr.code c <? 128)%N) s = true) :
  valid_zip_code (VStr s) st = (Ok true, st) <-> zip_format PyStr.is_ascii_digit s.
Proof.
  rewrite <- (valid_zip_str_ascii s Hascii). unfold valid_zip_code, ret.
  split; [by intros [= ->] | by intros ->].
Qed.

Lemma valid_zip_code_ascii_witness :
  valid_zip_code (VStr "12345-6789") init = (Ok true, init)
  <-> zip_format PyStr.is_ascii_digit "12345-6789".
Proof. apply valid_zip_code_ascii. reflexivity. Defined.

(** ** [validate_file] as a whole *)

(** X11: validating a sequence of records is validating a first part and
    then, with the same validator, the rest; an exception in the first
    part ends the run. *)
Theorem validate_file_app (a b : list dict) (st : validator) :
  validate_file (a ++ b) st = (validate_file a ;;; validate_file b) st.
Proof.
  revert st. induction a as [|d a IH]; intros st; [done|].
  cbn [app validate_file]. unfold bind in *.
  destruct (validate_record d st) as [[[]|e] st1]; [apply IH | done].
Qed.

(** X12: a record on which the loop raises ends the run there: the
    records after it are not looked at, and the state is the one the
    failing step left. *)
Theorem validate_file_stops (pre post : list dict) (d : dict)
    (st st1 st2 : validator) (e : exn)
    (Hpre : validate_file pre st = (Ok tt, st1))
    (Hfail : validate_record d st1 = (Raise e, st2)) :
  validate_file (pre ++ d :: post) st = (Raise e, st2).
Proof.
  revert st Hpre. induction pre as [|d0 pre IH]; intros st Hpre.
  - injection Hpre as ->. cbn [app]. by rewrite validate_file_cons, Hfail.
  - cbn [app]. rewrite validate_file_cons in *.
    destruct (validate_record d0 st) as [[[]|e0] st0]; [by apply IH | done].
Qed.

Lemma validate_file_stops_witness :
  let ok := [("name", VStr "a"); ("address", VStr "b"); ("zip", VStr "00000");
             ("id", VStr "1")] in
  let bad := [("name", VInt 5); ("id", VStr "2")] in
  exists st2, validate_file ([ok] ++ bad :: [ok; ok]) init = (Raise TypeError, st2).
Proof.
  intros ok bad. eexists.
  eapply (validate_file_stops [ok] [ok; ok] bad init); reflexivity.
Defined.

Lemma bad_grow_pure {A} (m : M A) : pure_M m -> bad_records_grow m.
Proof. intros H st. by rewrite H. Qed.

Lemma bad_grow_bind {A B} (m : M A) (f : A -> M B) :
  bad_records_grow m -> (forall a, bad_records_grow (f a)) -> bad_records_grow (bind m f).
Proof.
  intros Hm Hf st. unfold bind. specialize (Hm st).
  destruct (m st) as [[a|e] st1]; simpl in *; [| done].
  etrans; [exact Hm | apply Hf].
Qed.

Lemma bad_grow_add v : bad_records_grow (bad_records_add v).
Proof.
  intros st. unfold bad_records_add. destruct (hash_key v); simpl; set_solver.
Qed.

Lemma bad_grow_validate_record d : bad_records_grow (validate_record d).
Proof.
  apply bad_grow_bind.
  { intros st. by rewrite have_seen_bad_records. }
  intros [].
  - apply bad_grow_bind.
    + apply bad_grow_bind; [apply bad_grow_pure, pure_subscript | apply bad_grow_add].
    + intros _ st. unfold add_duplicate_to_bad_records, bind, get_state.
      destruct (records_seen st !! _); [apply bad_grow_add | done].
  - apply bad_grow_bind; [apply bad_grow_pure, pure_record_is_valid|].
    intros []; simpl; [by apply bad_grow_pure|].
    apply bad_grow_bind; [apply bad_grow_pure, pure_subscript | apply bad_grow_add].
Qed.

(** X13: the loop only ever adds to the bad-record set: whatever was
    flagged before a run is flagged after it, whether the run returns or
    raises, and the run never raises [NoIDError]. *)
Theorem validate_file_monotone (data : list dict) (st : validator) :
  bad_records st ⊆ bad_records (snd (validate_file data st))
  /\ fst (validate_file data st) <> Raise NoIDError.
Proof.
  split; [| apply validate_file_not_NoIDError].
  revert st. induction data as [|d data IH]; intros st; [done|].
  apply (bad_grow_bind (validate_record d) (fun _ => validate_file data));
    [apply bad_grow_validate_record | intros _; exact IH].
Qed.

Lemma const_ret {A} (a : A) : const_M (ret a).
Proof. by exists (Ok a). Qed.

Lemma const_raise {A} e : const_M (@raise A e).
Proof. by exists (Raise e). Qed.

Lemma const_bind {A B} (m : M A) (f : A -> M B) :
  const_M m -> (forall a, const_M (f a)) -> const_M (bind m f).
Proof.
  intros [r Hr] Hf. destruct r as [a|e].
  - destruct (Hf a) as [r' Hr']. exists r'. intros st. unfold bind. by rewrite Hr, Hr'.
  - exists (Raise e). intros st. unfold bind. by rewrite Hr.
Qed.

Lemma const_subscript r k : const_M (subscript r k).
Proof. unfold subscript. destruct (dict_get r k); [apply const_ret | apply const_raise]. Qed.

Lemma const_is_null_missing_blank r k : const_M (is_null_missing_blank r k).
Proof.
  unfold is_null_missing_blank. destruct (negb _); [apply const_ret|].
  apply const_bind; [apply const_subscript|]. intros v.
  destruct v; simpl; try apply const_ret;
    (apply const_bind; [first [apply const_ret | apply const_raise]
                       | intros n; destruct (Nat.eqb n 0); apply const_ret]).
Qed.

Lemma const_record_is_valid r : const_M (record_is_valid r).
Proof.
  unfold record_is_valid. destruct (negb _); [apply const_raise|].
  repeat first
    [ apply const_ret | apply const_is_null_missing_blank | apply const_subscript
    | apply const_bind; [| intros ?]
    | match goal with |- const_M (if ?b then _ else _) => destruct b end
    | match goal with |- const_M (valid_zip_code ?z) =>
        destruct z; first [apply const_ret | apply const_raise] end ].
Qed.

(** The outcome of [record_is_valid] does not depend on the state. *)
Lemma record_is_valid_state r st :
  record_is_valid r st = (fst (record_is_valid r init), st).
Proof. destruct (const_record_is_valid r) as [x Hx]. by rewrite !Hx. Qed.

(** What a step of the loop that returns has done on a new fingerprint. *)
Lemma validate_record_ok_fresh d st st' :
  records_seen st !! fingerprint d = None ->
  validate_record d st = (Ok tt, st') ->
  exists v,
    dict_get d "id" = Some v
    /\ records_seen st' = <[fingerprint d := v]> (records_seen st)
    /\ ((fst (record_is_valid d init) = Ok true /\ bad_records st' = bad_records st)
        \/ (invalid d /\ exists h, hash_key v = Some h
                                   /\ bad_records st' = {[h]} ∪ bad_records st)).
Proof.
  intros Hreg Hrun.
  destruct (dict_get d "id") as [v|] eqn:Hid;
    [| by rewrite validate_record_missing_id in Hrun].
  exists v. split; [done|].
  rewrite (validate_record_fresh d st v Hreg Hid) in Hrun.
  rewrite record_is_valid_state in Hrun. unfold invalid.
  destruct (fst (record_is_valid d init)) as [[]|e]; simpl in Hrun; [| | done].
  - injection Hrun as <-. simpl. split; [done|]. by left.
  - unfold add_to_bad_records, bind, subscript, bad_records_add in Hrun.
    rewrite Hid in Hrun. simpl in Hrun. destruct (hash_key v) as [h|]; [| done].
    injection Hrun as <-. simpl. split; [done|]. right. split; [done|]. by exists h.
Qed.

Lemma run_inv_init data : run_inv data 0 init.
Proof.
  split; [intros; lia|]. split.
  - intros fp v. split; [done|]. intros (i & _ & Hi & _). lia.
  - intros h. split; [set_solver|]. intros (i & _ & _ & Hi & _). lia.
Qed.

Lemma has_duplicate_mono data n m i di :
  n <= m -> has_duplicate data n i di -> has_duplicate data m i di.
Proof. intros Hle (j & dj & Hj & H). exists j, dj. split; [lia | done]. Qed.

Lemma run_inv_step data n d st st' :
  data !! n = Some d -> run_inv data n st ->
  validate_record d st = (Ok tt, st') -> run_inv data (S n) st'.
Proof.
  intros Hd (Hall & Hreg & Hbad) Hrun.
  destruct (records_seen st !! fingerprint d) as [v0|] eqn:Hfp.
  - (* the record is a duplicate *)
    destruct (validate_record_ok _ _ _ Hrun)
      as [(v0' & v & h & h0 & Hfp' & Hid & Hh & Hh0 & ->)
         |(v & Hfp' & _)]; [| congruence].
    assert (v0' = v0) as -> by congruence. clear Hfp'.
    destruct (proj1 (Hreg _ _) Hfp) as (i0 & d0 & Hi0 & Hd0 & Hfp0 & Hid0 & Hfirst0).
    unfold run_inv. cbn [records_seen bad_records]. split; [| split].
    + intros i di Hi Hdi. destruct (decide (i = n)) as [->|Hne].
      * assert (di = d) as -> by congruence. by rewrite Hfp.
      * apply (Hall i di); [lia | done].
    + intros fp w. rewrite Hreg. split.
      * intros (i & di & Hi & H). exists i, di. split; [lia | done].
      * intros (i & di & Hi & Hdi & Hfpi & Hidi & Hfirst).
        destruct (decide (i = n)) as [->|Hne].
        -- exfalso. assert (di = d) as -> by congruence.
           apply (Hfirst i0 d0 Hi0 Hd0). congruence.
        -- exists i, di. split; [lia | done].
    + intros x. rewrite !elem_of_union, !elem_of_singleton, Hbad. split.
      * intros [->|[->|(i & di & w & Hi & Hdi & Hidi & Hhi & Hc)]].
        -- exists i0, d0, v0. repeat (split; [first [lia | done]|]).
           left. exists n, d. repeat (split; [first [lia | done]|]). congruence.
        -- exists n, d, v. repeat (split; [first [lia | done]|]).
           left. exists i0, d0. repeat (split; [first [lia | done]|]). done.
        -- exists i, di, w. repeat (split; [first [lia | done]|]).
           destruct Hc as [Hc|Hc]; [left | by right].
           apply (has_duplicate_mono data n); [lia | done].
      * intros (i & di & w & Hi & Hdi & Hidi & Hhi & Hc).
        destruct (decide (i = n)) as [->|Hne].
        { assert (di = d) as -> by congruence. right; left. congruence. }
        assert (Hin : i < n) by lia.
        destruct Hc as [(j & dj & Hj & Hji & Hdj & Hfpj)|Hinv].
        2:{ right; right. exists i, di, w. repeat (split; [done|]). by right. }
        destruct (decide (j = n)) as [->|Hjn].
        2:{ right; right. exists i, di, w. repeat (split; [done|]).
            left. exists j, dj. split; [lia | done]. }
        assert (dj = d) as -> by congruence.
        destruct (decide (i = i0)) as [->|Hii0].
        { left. assert (di = d0) as -> by congruence. congruence. }
        right; right. exists i, di, w. repeat (split; [done|]).
        left. exists i0, d0. repeat (split; [first [lia | done]|]). congruence.
  - (* the fingerprint is new *)
    assert (Hnew : forall j dj, j < n -> data !! j = Some dj ->
              fingerprint dj <> fingerprint d).
    { intros j dj Hj Hdj E. destruct (Hall j dj Hj Hdj) as [x Hx]. congruence. }
    destruct (validate_record_ok_fresh _ _ _ Hfp Hrun) as (v & Hid & Hreg' & Hcase).
    split; [| split].
    + intros i di Hi Hdi. rewrite Hreg'.
      destruct (decide (fingerprint di = fingerprint d)) as [->|Hne].
      * by rewrite lookup_insert_eq.
      * rewrite lookup_insert_ne by done.
        destruct (decide (i = n)) as [->|Hin]; [congruence|].
        apply (Hall i di); [lia | done].
    + intros fp w. rewrite Hreg'.
      destruct (decide (fp = fingerprint d)) as [->|Hne].
      * rewrite lookup_insert_eq. split.
        -- intros [= <-]. exists n, d. repeat (split; [first [lia | done]|]). exact Hnew.
        -- intros (i & di & Hi & Hdi & Hfpi & Hidi & _).
           destruct (decide (i = n)) as [->|Hin]; [congruence|].
           exfalso. apply (Hnew i di); [lia | done | done].
      * rewrite lookup_insert_ne by done. rewrite Hreg. split.
        -- intros (i & di & Hi & H). exists i, di. split; [lia | done].
        -- intros (i & di & Hi & Hdi & Hfpi & H).
           destruct (decide (i = n)) as [->|Hin]; [congruence|].
           exists i, di. split; [lia | done].
    + assert (Hold : forall x,
                (exists i di w, i < S n /\ data !! i = Some di
                   /\ dict_get di "id" = Some w /\ hash_key w = Some x
                   /\ (has_duplicate data (S n) i di \/ invalid di))
                <-> x ∈ bad_records st \/ (invalid d /\ hash_key v = Some x)).
      { intros x. rewrite Hbad. split.
        - intros (i & di & w & Hi & Hdi & Hidi & Hhi & Hc).
          destruct (decide (i = n)) as [->|Hin].
          + assert (di = d) as -> by congruence. right.
            destruct Hc as [(j & dj & Hj & Hjn & Hdj & Hfpj)|Hinv].
            * exfalso. apply (Hnew j dj); [lia | done | done].
            * split; [done | congruence].
          + left. exists i, di, w. repeat (split; [first [lia | done]|]).
            destruct Hc as [(j & dj & Hj & Hji & Hdj & Hfpj)|Hinv]; [| by right].
            left. exists j, dj. destruct (decide (j = n)) as [->|Hjn].
            * exfalso. assert (dj = d) as -> by congruence.
              apply (Hnew i di); [lia | done | done].
            * split; [lia | done].
        - intros [(i & di & w & Hi & Hdi & Hidi & Hhi & Hc)|[Hinv Hh]].
          + exists i, di, w. repeat (split; [first [lia | done]|]).
            destruct Hc as [Hc|Hc]; [left | by right].
            apply (has_duplicate_mono data n); [lia | done].
          + exists n, d, v. repeat (split; [first [lia | done]|]). by right. }
      intros x. rewrite Hold.
      destruct Hcase as [[Hvalid ->]|(Hinv & h & Hh & ->)].
      * split; [by left|]. intros [H|[Hinv _]]; [done|].
        unfold invalid in Hinv. congruence.
      * rewrite elem_of_union, elem_of_singleton. split.
        -- intros [->|H]; [by right | by left].
        -- intros [H|[_ Hx]]; [by right | left; congruence].
Qed.

Lemma run_inv_run pre data st st' :
  run_inv (pre ++ data) (length pre) st ->
  validate_file data st = (Ok tt, st') ->
  run_inv (pre ++ data) (length pre + length data) st'.
Proof.
  revert pre st. induction data as [|d data IH]; intros pre st Hinv Hrun.
  - injection Hrun as <-. by rewrite Nat.add_0_r.
  - simpl in Hrun. unfold bind in Hrun.
    destruct (validate_record d st) as [[[]|e] st1] eqn:Hstep; [| done].
    assert (Hd : ((pre ++ d :: data)%list : list dict) !! length pre = Some d)
      by (by rewrite list_lookup_middle).
    pose proof (run_inv_step _ _ _ _ _ Hd Hinv Hstep) as Hinv1.
    specialize (IH (pre ++ [d])%list st1).
    rewrite <- !app_assoc, length_app in IH. simpl in IH.
    rewrite Nat.add_1_r in IH. specialize (IH Hinv1 Hrun).
    simpl. by rewrite <- Nat.add_succ_comm.
Qed.

Lemma run_inv_final data st' :
  validate_file data init = (Ok tt, st') -> run_inv data (length data) st'.
Proof. intros Hrun. apply (run_inv_run [] data init st'); [apply run_inv_init | done]. Qed.

(** X14: after a run from a fresh validator that returns, an id is in the
    bad-record set exactly when it is the id of an input record that
    shares its fingerprint with a record at another position, or on which
    [record_is_valid] returns [False]: every id the run flags has one of
    these two causes, and neither cause is missed. *)
Theorem validate_file_flags_exactly (data : list dict) (st' : validator) (h : hkey)
    (Hrun : validate_file data init = (Ok tt, st')) :
  h ∈ bad_records st' <->
  exists i di v,
    data !! i = Some di /\ dict_get di "id" = Some v /\ hash_key v = Some h
    /\ ((exists j dj, j <> i /\ data !! j = Some dj
                      /\ fingerprint dj = fingerprint di)
        \/ fst (record_is_valid di init) = Ok false).
Proof.
  destruct (run_inv_final data st' Hrun) as (_ & _ & Hbad). rewrite Hbad. split.
  - intros (i & di & v & Hi & Hdi & Hid & Hh & Hc). exists i, di, v.
    repeat (split; [done|]).
    destruct Hc as [(j & dj & _ & H)|Hc]; [left; by exists j, dj | by right].
  - intros (i & di & v & Hdi & Hid & Hh & Hc). exists i, di, v.
    split; [by eapply lookup_lt_Some|]. repeat (split; [done|]).
    destruct Hc as [(j & dj & Hji & Hdj & Hfp)|Hc]; [left | by right].
    exists j, dj. split; [by eapply lookup_lt_Some | done].
Qed.

Lemma validate_file_flags_exactly_witness :
  let data := [ [("name", VStr "a"); ("address", VStr "b"); ("zip", VStr "12345");
                 ("id", VStr "1")];
                [("name", VStr ""); ("address", VStr "c"); ("zip", VStr "12345");
                 ("id", VStr "2")] ] in
  HStr "2" ∈ bad_records (snd (validate_file data init)) <->
  exists i di v,
    data !! i = Some di /\ dict_get di "id" = Some v /\ hash_key v = Some (HStr "2")
    /\ ((exists j dj, j <> i /\ data !! j = Some dj
                      /\ fingerprint dj = fingerprint di)
        \/ fst (record_is_valid di init) = Ok false).
Proof.
  intros data. apply (validate_file_flags_exactly data _ (HStr "2")). reflexivity.
Defined.

(** X15: after a run from a fresh validator that returns, the
    seen-registry maps a fingerprint to an id exactly when that id is the
    id of the first input record with the fingerprint: later records with
    the same fields never replace the entry. *)
Theorem validate_file_registry (data : list dict) (st' : validator)
    (fp : string) (v : value)
    (Hrun : validate_file data init = (Ok tt, st')) :
  records_seen st' !! fp = Some v <->
  exists i di,
    data !! i = Some di /\ fingerprint di = fp /\ dict_get di "id" = Some v
    /\ forall j dj, j < i -> data !! j = Some dj -> fingerprint dj <> fp.
Proof.
  destruct (run_inv_final data st' Hrun) as (_ & Hreg & _). rewrite Hreg. split.
  - intros (i & di & _ & H). by exists i, di.
  - intros (i & di & Hdi & H). exists i, di. split; [by eapply lookup_lt_Some | done].
Qed.

Lemma validate_file_registry_witness :
  let r := fun i => [("name", VStr "0"); ("zip", VStr "00000"); ("id", VStr i)] in
  let data := [r "3"; r "4"] in
  records_seen (snd (validate_file data init)) !! fingerprint (r "4") = Some (VStr "3").
Proof.
  intros r data.
  apply (validate_file_registry data _ (fingerprint (r "4")) (VStr "3")); [reflexivity|].
  exists 0, (r "3"). repeat (split; [reflexivity|]). intros j dj Hj. lia.
Defined.

(** X16: the run flags no record without cause: after a run from a fresh
    validator that returns, a record on which [record_is_valid] returns
    [True], whose fingerprint no other input record has and whose id no
    other input record carries, is not in the bad-record set. *)
Theorem valid_unique_not_flagged (data : list dict) (st' : validator)
    (i : nat) (di : dict) (v : value) (h : hkey)
    (Hrun : validate_file data init = (Ok tt, st'))
    (Hi : data !! i = Some di)
    (Hid : dict_get di "id" = Some v) (Hh : hash_key v = Some h)
    (Hvalid : fst (record_is_valid di init) = Ok true)
    (Hfp : forall j dj, data !! j = Some dj ->
             fingerprint dj = fingerprint di -> j = i)
    (Hids : forall j dj w, data !! j = Some dj -> dict_get dj "id" = Some w ->
              hash_key w = Some h -> j = i) :
  h ∉ bad_records st'.
Proof.
  destruct (run_inv_final data st' Hrun) as (_ & _ & Hbad). rewrite Hbad.
  intros (k & dk & w & _ & Hdk & Hidk & Hhk & Hc).
  assert (k = i) as -> by (by apply (Hids k dk w)).
  assert (dk = di) as -> by congruence.
  destruct Hc as [(j & dj & _ & Hji & Hdj & Hfpj)|Hinv].
  - apply Hji. by apply (Hfp j dj).
  - unfold invalid in Hinv. congruence.
Qed.

Lemma valid_unique_not_flagged_witness :
  let data := [ [("name", VStr "a"); ("address", VStr "b"); ("zip", VStr "12345");
                 ("id", VStr "1")];
                [("name", VStr ""); ("address", VStr "c"); ("zip", VStr "12345");
                 ("id", VStr "2")] ] in
  HStr "1" ∉ bad_records (snd (validate_file data init)).
Proof.
  intros data.
  apply (valid_unique_not_flagged data _ 0
           [("name", VStr "a"); ("address", VStr "b"); ("zip", VStr "12345");
            ("id", VStr "1")] (VStr "1") (HStr "1"));
    try reflexivity.
  - intros [|[|j]] dj Hj Hfp; simpl in Hj; [done | | done].
    injection Hj as <-. vm_compute in Hfp. discriminate Hfp.
  - intros [|[|j]] dj w Hj Hw Hh; simpl in Hj; [done | | done].
    injection Hj as <-. vm_compute in Hw. injection Hw as <-. discriminate Hh.
Defined.

Lemma bad_grow_validate_file data : bad_records_grow (validate_file data).
Proof.
  induction data as [|d data IH]; [by intros st|].
  apply (bad_grow_bind (validate_record d) (fun _ => validate_file data));
    [apply bad_grow_validate_record | intros _; exact IH].
Qed.

(** On records whose fingerprints are all registered, a run that returns
    flags every record. *)
Lemma validate_file_all_seen data st st' :
  (forall d, d ∈ data -> is_Some (records_seen st !! fingerprint d)) ->
  validate_file data st = (Ok tt, st') ->
  forall d, d ∈ data -> flagged d st'.
Proof.
  revert st. induction data as [|d0 data IH]; intros st Hseen Hrun d Hd.
  { by apply elem_of_nil in Hd. }
  rewrite validate_file_cons in Hrun.
  destruct (validate_record d0 st) as [[[]|e] st1] eqn:Hstep; [| done].
  destruct (validate_record_ok _ _ _ Hstep)
    as [(v0 & v & h & h0 & Hreg & Hid & Hh & Hh0 & ->)|(v & Hreg & _)].
  2:{ destruct (Hseen d0) as [x Hx]; [set_solver | congruence]. }
  apply elem_of_cons in Hd as [->|Hd].
  - apply (flagged_mono d0 (mkValidator ({[h0]} ∪ ({[h]} ∪ bad_records st)) (records_seen st))).
    + pose proof (bad_grow_validate_file data
        (mkValidator ({[h0]} ∪ ({[h]} ∪ bad_records st)) (records_seen st))) as Hg.
      by rewrite Hrun in Hg.
    + exists v, h. repeat (split; [done|]). set_solver.
  - eapply IH; [| exact Hrun | exact Hd].
    intros d' Hd'. apply Hseen. set_solver.
Qed.

(** X17: the validator keeps its registry between runs: when a run over
    [data] has returned, a second run over the same [data] with the same
    validator, if it returns, leaves the id of every record of [data] in
    the bad-record set, valid and unique records included. *)
Theorem rerun_flags_all (data : list dict) (st st1 st2 : validator) (d : dict)
    (H1 : validate_file data st = (Ok tt, st1))
    (H2 : validate_file data st1 = (Ok tt, st2))
    (Hd : d ∈ data) :
  flagged d st2.
Proof.
  apply (validate_file_all_seen data st1 st2); [| exact H2 | exact Hd].
  intros d' Hd'. apply list_elem_of_lookup in Hd' as [i Hi].
  assert (Hinv : loop_inv data (length data) st1).
  { apply (loop_inv_run [] data st st1); [| exact H1].
    intros k dk Hk. simpl in Hk. lia. }
  destruct (Hinv i d') as [Hsome _]; [by eapply lookup_lt_Some | done | done].
Qed.

Lemma rerun_flags_all_witness :
  let r := [("name", VStr "a"); ("address", VStr "b"); ("zip", VStr "12345");
            ("id", VStr "1")] in
  let st1 := snd (validate_file [r] init) in
  bad_records st1 = ∅ /\ flagged r (snd (validate_file [r] st1)).
Proof.
  intros r st1. split; [reflexivity|].
  apply (rerun_flags_all [r] init st1 _ r); [reflexivity | reflexivity | apply list_elem_of_here].
Defined.

(** X18: [is_null_missing_blank] raises [TypeError] exactly when the
    field holds a number or a boolean, on which [len] is not defined, and
    returns [True] exactly when the field is absent, [None], or an empty
    string, list or dict. *)
Theorem is_null_missing_blank_outcomes (r : dict) (k : string) (st : validator) :
  (fst (is_null_missing_blank r k st) = Raise TypeError
   <-> exists v, dict_get r k = Some v /\ (kind v = 1 \/ kind v = 2))
  /\ (fst (is_null_missing_blank r k st) = Ok true
      <-> dict_get r k = None
          \/ dict_get r k = Some VNone
          \/ dict_get r k = Some (VStr "")
          \/ dict_get r k = Some (VList [])
          \/ dict_get r k = Some (VDict [])).
Proof.
  unfold is_null_missing_blank, dict_has, subscript, bind, ret, raise.
  assert (Hno : forall v, kind v <> 1 -> kind v <> 2 ->
            ~ exists v', Some v = Some v' /\ (kind v' = 1 \/ kind v' = 2)).
  { intros v H1 H2 (v' & [= <-] & [H|H]); done. }
  destruct (dict_get r k) as [[ |b|z|s|l|d]|]; simpl.
  - split; [split; [done | by intros ?%Hno] | split; auto].
  - split; [split; [intros _; exists (VBool b); auto | done]|].
    split; [done | intros [H|[H|[H|[H|H]]]]; discriminate H].
  - split; [split; [intros _; exists (VInt z); auto | done]|].
    split; [done | intros [H|[H|[H|[H|H]]]]; discriminate H].
  - destruct s; simpl; (split; [split; [done | by intros ?%Hno]|]).
    + split; auto.
    + split; [done | intros [H|[H|[H|[H|H]]]]; discriminate H].
  - destruct l; simpl; (split; [split; [done | by intros ?%Hno]|]).
    + split; auto 6.
    + split; [done | intros [H|[H|[H|[H|H]]]]; discriminate H].
  - destruct d; simpl; (split; [split; [done | by intros ?%Hno]|]).
    + split; auto 6.
    + split; [done | intros [H|[H|[H|[H|H]]]]; discriminate H].
  - split; [split; [done | intros (v & H & _); done] | split; auto].
Qed.

(** X19: [record_is_valid] does not return [False] on a zip of the wrong
    type, it raises: on a record with an id and non-empty string name and
    address, a zip that is a number or a boolean raises [TypeError] (from
    [len]) and a zip that is a non-empty list or dict raises
    [AttributeError] (from [isnumeric]); the state is left as it was. *)
Theorem record_is_valid_zip_type (r : dict) (st : validator) (n a : string) (z : value)
    (Hid : dict_has r "id" = true)
    (Hname : dict_get r "name" = Some (VStr n)) (Hn : n <> "")
    (Haddr : dict_get r "address" = Some (VStr a)) (Ha : a <> "")
    (Hzip : dict_get r "zip" = Some z) :
  (kind z = 1 \/ kind z = 2 -> record_is_valid r st = (Raise TypeError, st))
  /\ (kind z = 4 \/ kind z = 5 -> z <> VList [] -> z <> VDict [] ->
      record_is_valid r st = (Raise AttributeError, st)).
Proof.
  unfold record_is_valid. rewrite Hid. simpl.
  unfold is_null_missing_blank, dict_has, subscript, bind, ret, raise.
  rewrite Hname, Haddr, Hzip. simpl.
  destruct n as [|c n]; [done|]. destruct a as [|c' a]; [done|]. simpl.
  split.
  - intros [Hk|Hk]; destruct z; simpl in *; done.
  - intros [Hk|Hk] Hl Hd; destruct z as [ | | | |l|d]; simpl in *; try done.
    + by destruct l.
    + by destruct d.
Qed.

Lemma record_is_valid_zip_type_witness :
  let r := [("id", VStr "1"); ("name", VStr "a"); ("address", VStr "b");
            ("zip", VInt 12345)] in
  record_is_valid r init = (Raise TypeError, init).
Proof.
  intros r.
  apply (record_is_valid_zip_type r init "a" "b" (VInt 12345));
    [reflexivity | reflexivity | done | reflexivity | done | reflexivity | by right].
Defined.
